(** * ProcessLink: the connection / tag polling engine

    A shallow embedding of [process_link/connection.py] and
    [process_link/connections/logix.py], and the properties of the polling
    engine established over it.

    Python objects are records, dictionaries are [gmap]s, lists are lists,
    exceptions are values of [exn] carried by [result] (pure code) or
    [outcome] (methods that mutate a connection).  Floating-point numbers
    are represented by exact rationals ([Qc]). *)

From Stdlib Require Import QArith Qcanon.
From stdpp Require Import gmap strings list fin_maps.

Open Scope string_scope.
Open Scope list_scope.

Set Warnings "-clear-no-such-hyp".

(** ** Python values *)

Module Py.

(** The values that occur in parameter dictionaries.  Values are compared
    structurally: numbers are one kind, and a boolean is not a number. *)
Inductive pyval :=
| VNone
| VBool (b : bool)
| VNum (q : Qc)
| VStr (s : string).

#[global] Instance pyval_eq_dec : EqDecision pyval.
Proof. solve_decision. Defined.

Definition pyval_enc (v : pyval) : unit + bool + Qc + string :=
  match v with
  | VNone => inl (inl (inl tt))
  | VBool b => inl (inl (inr b))
  | VNum q => inl (inr q)
  | VStr s => inr s
  end.

Definition pyval_dec (x : unit + bool + Qc + string) : pyval :=
  match x with
  | inl (inl (inl _)) => VNone
  | inl (inl (inr b)) => VBool b
  | inl (inr q) => VNum q
  | inr s => VStr s
  end.

#[global] Instance pyval_countable : Countable pyval.
Proof.
  apply (inj_countable' pyval_enc pyval_dec).
  by intros [].
Defined.

(** [bool(v)]: Python truthiness. *)
Definition truthy (v : pyval) : bool :=
  match v with
  | VNone => false
  | VBool b => b
  | VNum q => negb (bool_decide (q = 0%Qc))
  | VStr s => negb (bool_decide (s = ""))
  end.

(** [a or b] *)
Definition py_or (a b : pyval) : pyval := if truthy a then a else b.

(** Exceptions.  [PropertyError text key] stands for a [PropertyError]
    whose message is [text] followed by [str(e)] for [e = KeyError(key)],
    as the f-strings of the sources build it. *)
Inductive exn :=
| KeyError (key : pyval)
| PropertyError (text : string) (key : pyval)
| IndexError (msg : string)
| ValueError (msg : string)
| TypeError (msg : string).

#[global] Instance exn_eq_dec : EqDecision exn.
Proof. solve_decision. Defined.

(** The result of code that either returns or raises. *)
Inductive result (A : Type) :=
| Return (a : A)
| Raise (e : exn).
Arguments Return {A} a.
Arguments Raise {A} e.

Definition rbind {A B} (r : result A) (k : A → result B) : result B :=
  match r with
  | Return a => k a
  | Raise e => Raise e
  end.

#[global] Instance result_ret : MRet result := @Return.
#[global] Instance result_bind : MBind result := λ A B k r, rbind r k.

(** [try: body / except KeyError as e: raise handler(e)] *)
Definition except_KeyError {A} (body : result A) (handler : pyval → exn) : result A :=
  match body with
  | Raise (KeyError k) => Raise (handler k)
  | r => r
  end.

(** [PropertyError(f"Missing expected property {e}")] for [e = KeyError(k)]:
    the error the spec calls MissingProperty. *)
Definition MissingProperty (k : pyval) : exn :=
  PropertyError "Missing expected property " k.

(** [PropertyError(f'Error creating tag, unknown type: {e}')] for
    [e = KeyError(k)]: the error the spec calls UnknownTagType. *)
Definition UnknownTagType (k : pyval) : exn :=
  PropertyError "Error creating tag, unknown type: " k.

(** A dictionary with string keys, as [params] is. *)
Abbreviation dict := (gmap string pyval).

(** [d[k]] for a string key, and for a key that is any value *)
Definition getitem {V} (d : gmap string V) (k : string) : result V :=
  match d !! k with
  | Some v => Return v
  | None => Raise (KeyError (VStr k))
  end.

Definition getitem_v {V} (d : gmap pyval V) (k : pyval) : result V :=
  match d !! k with
  | Some v => Return v
  | None => Raise (KeyError k)
  end.

(** [d.get(k)] *)
Definition get (d : dict) (k : string) : pyval := default VNone (d !! k).

(** [k in d] *)
Definition contains (d : dict) (k : string) : bool := bool_decide (is_Some (d !! k)).

(** *** Lists *)
Section Lists.
Context {A : Type} `{EqDecision A}.

(** [x in l] *)
Definition py_in (x : A) (l : list A) : bool := bool_decide (x ∈ l).

(** [l.remove(x)]: drops the first occurrence, [ValueError] if there is none. *)
Fixpoint py_remove (x : A) (l : list A) : result (list A) :=
  match l with
  | [] => Raise (ValueError "list.remove(x): x not in list")
  | y :: l' =>
      if decide (x = y) then Return l'
      else r ← py_remove x l'; Return (y :: r)
  end.

(** [l.pop(i)] for [0 <= i]: drops position [i], [IndexError] out of range. *)
Definition py_pop (i : nat) (l : list A) : result (list A) :=
  if decide (i < length l) then Return (take i l ++ drop (S i) l)
  else Raise (IndexError "pop index out of range").

(** [enumerate(l)] *)
Definition enumerate (l : list A) : list (nat * A) := imap pair l.
End Lists.

(** [range(n-1, -1, -1)] *)
Definition range_down (n : nat) : list nat := reverse (seq 0 n).

End Py.
Import Py.


(** ** The polled-tag list

    The list manipulations of [update_polled_tags] and [remove_polled_tags],
    loop by loop. *)

Section PolledList.
Context {A : Type} `{EqDecision A}.

(** [for tag in sub_tags: if tag not in polled: polled.append(tag)] *)
Definition append_missing (sub_tags polled : list A) : list A :=
  foldl (λ polled tag, if py_in tag polled then polled else polled ++ [tag])
        polled sub_tags.

(** [for tag in sub_tags: if tag in polled: polled.remove(tag)] *)
Fixpoint remove_present (sub_tags polled : list A) : result (list A) :=
  match sub_tags with
  | [] => Return polled
  | tag :: rest =>
      if py_in tag polled
      then polled' ← py_remove tag polled; remove_present rest polled'
      else remove_present rest polled
  end.

(** [hitlist = []
     for i, tag in enumerate(polled): if not tag in sub_tags: hitlist.append(i)] *)
Definition hitlist (sub_tags polled : list A) : list nat :=
  foldl (λ hl it, if py_in it.2 sub_tags then hl else hl ++ [it.1])
        [] (enumerate polled).

(** [for i in idxs: polled.pop(i)] *)
Fixpoint pop_each (idxs : list nat) (polled : list A) : result (list A) :=
  match idxs with
  | [] => Return polled
  | i :: rest => polled' ← py_pop i polled; pop_each rest polled'
  end.

(** [for i in range(len(hitlist)-1, -1, -1): polled.pop(i)]: the loop
    variable ranges over the positions of [hitlist], and it is the loop
    variable that is popped. *)
Definition pop_hitlist (hl : list nat) (polled : list A) : result (list A) :=
  pop_each (range_down (length hl)) polled.

(** The list part of [update_polled_tags]. *)
Definition updated_list (sub_tags polled : list A) : result (list A) :=
  let polled1 := append_missing sub_tags polled in
  pop_hitlist (hitlist sub_tags polled1) polled1.

(** The list part of [remove_polled_tags]. *)
Definition removed_list (sub_tags polled : list A) : result (list A) :=
  polled1 ← remove_present sub_tags polled;
  pop_hitlist (hitlist sub_tags polled1) polled1.
End PolledList.


(** ** The object-relational models

    [ConnectionDb.models] is declared in [database.py], which is not part
    of the code under verification: the table is a parameter [models] of
    every constructor that reads it, and its entries are opaque handles. *)

Inductive orm := OrmModel (table : string).

Abbreviation orm_models := (gmap string orm).

(** ** Tags *)

Module Tag.

Record t := mk {
  _id : pyval;
  _connection_id : pyval;
  _description : pyval;
  _datatype : pyval;
  _tag_type : pyval }.

Definition set_tag_type (v : pyval) (tag : t) : t :=
  mk (_id tag) (_connection_id tag) (_description tag) (_datatype tag) v.

(** Modelled from the spec: [Tag.__init__] lives in [tag.py], which is not
    part of the code under verification.  "[create(params)]: requires [id],
    [connection_id]; optional fields default to empty/neutral values.
    Fails with a [MissingProperty] error if either required field is
    absent."  The optional fields are the attributes the spec lists:
    [description], [datatype] and [tag_type]. *)
Definition __init__ (params : dict) : result t :=
  id ← except_KeyError (getitem params "id") MissingProperty;
  connection_id ← except_KeyError (getitem params "connection_id") MissingProperty;
  Return (mk id connection_id
             (default (VStr "") (params !! "description"))
             (default (VStr "") (params !! "datatype"))
             (default (VStr "") (params !! "tag_type"))).

End Tag.

Module LogixTag.

Record t := mk {
  base : Tag.t;
  orm_ : orm;
  _address : pyval }.

(** [LogixTag.__init__] (the [properties] name list of the [APIClass]
    base, declared in [api.py], is not represented). *)
Definition __init__ (models : orm_models) (params : dict) : result t :=
  b ← Tag.__init__ params;
  let b := Tag.set_tag_type (VStr "logix") b in
  o ← getitem models "tag-params-logix";
  address ← except_KeyError (getitem params "address") MissingProperty;
  Return (mk b o address).

End LogixTag.

(** The tag objects a connection can hold, and the classes that build them. *)
Inductive tag_obj :=
| ATag (tag : Tag.t)
| ALogixTag (tag : LogixTag.t).

Inductive tag_class := TagClass | LogixTagClass.

(** [cls(params)] *)
Definition construct (models : orm_models) (cls : tag_class) (params : dict)
  : result tag_obj :=
  match cls with
  | TagClass => tag ← Tag.__init__ params; Return (ATag tag)
  | LogixTagClass => tag ← LogixTag.__init__ models params; Return (ALogixTag tag)
  end.

(** [TAG_TYPES = {'local': Tag}] *)
Definition TAG_TYPES : gmap string tag_class := {[ "local" := TagClass ]}.

(** ** Connections *)

Module Connection.

(** The attributes of a connection object.  The back-reference
    [process_link] only serves to reach the update sink, whose calls are
    recorded in the trace below; [con_man] belongs to the manager glue
    ([connect_connection], [disconnect_connection]); the [properties] name
    list belongs to the [APIClass] base. *)
Record t := mk {
  _id : pyval;
  _connection_type : string;
  _description : pyval;
  _tags : gmap pyval tag_obj;
  _pollrate : pyval;
  base_orm : orm;
  polled_tags : list pyval;
  thread_lock : bool;
  polling : bool }.

Definition set_connection_type (v : string) (c : t) : t :=
  mk (_id c) v (_description c) (_tags c) (_pollrate c) (base_orm c)
     (polled_tags c) (thread_lock c) (polling c).
Definition set_tags (v : gmap pyval tag_obj) (c : t) : t :=
  mk (_id c) (_connection_type c) (_description c) v (_pollrate c) (base_orm c)
     (polled_tags c) (thread_lock c) (polling c).
Definition set_pollrate (v : pyval) (c : t) : t :=
  mk (_id c) (_connection_type c) (_description c) (_tags c) v (base_orm c)
     (polled_tags c) (thread_lock c) (polling c).
Definition set_polled_tags (v : list pyval) (c : t) : t :=
  mk (_id c) (_connection_type c) (_description c) (_tags c) (_pollrate c)
     (base_orm c) v (thread_lock c) (polling c).
Definition set_thread_lock (v : bool) (c : t) : t :=
  mk (_id c) (_connection_type c) (_description c) (_tags c) (_pollrate c)
     (base_orm c) (polled_tags c) v (polling c).
Definition set_polling_flag (v : bool) (c : t) : t :=
  mk (_id c) (_connection_type c) (_description c) (_tags c) (_pollrate c)
     (base_orm c) (polled_tags c) (thread_lock c) v.

(** The properties [id], [connection_type] and [tags]. *)
Definition id (c : t) : pyval := _id c.
Definition connection_type (c : t) : string := _connection_type c.
Definition tags (c : t) : gmap pyval tag_obj := _tags c.

(** [0.5], the default poll rate, and [3.14159], the sample value. *)
Definition default_pollrate : Qc := Q2Qc (1 # 2).
Definition sample_value : Qc := Q2Qc (314159 # 100000).

(** [Connection.__init__] *)
Definition __init__ (models : orm_models) (params : dict) : result t :=
  _ ← except_KeyError
        (_ ← getitem params "id"; getitem params "connection_type")
        MissingProperty;
  let id := get params "id" in
  let connection_type := "local" in
  let description :=
    if contains params "description" then get params "description" else VStr "" in
  let pollrate :=
    if contains params "pollrate" then get params "pollrate"
    else VNum default_pollrate in
  base_orm ← getitem models "connection-params-local";
  Return (mk id connection_type description ∅ pollrate base_orm [] false false).

(** *** Effects

    What a method does besides updating the connection object: the calls
    it makes to the outside, each stamped with the value [thread_lock]
    has when the call is made.  [StoreUpdates] is the call
    [self.process_link.update_handler.store_updates(updates)], which is
    taken to return. *)
Inductive call :=
| ThreadStart
| StoreUpdates (updates : gmap pyval (list (Qc * Qc)))
| Sleep (seconds : Qc).

Record event := Event { ev_call : call; ev_locked : bool }.

Record world := World { self : t; trace : list event }.

(** A method either returns, raises, or is stuck spinning on
    [thread_lock], which no step of the calling thread will clear. *)
Inductive outcome (A : Type) :=
| Returns (a : A)
| Raises (e : exn)
| Blocked.
Arguments Returns {A} a.
Arguments Raises {A} e.
Arguments Blocked {A}.

Definition M (A : Type) : Type := world → outcome A * world.

Definition ret {A} (a : A) : M A := λ w, (Returns a, w).
Definition bind {A B} (m : M A) (k : A → M B) : M B :=
  λ w, match m w with
       | (Returns a, w') => k a w'
       | (Raises e, w') => (Raises e, w')
       | (Blocked, w') => (Blocked, w')
       end.

#[global] Instance M_ret : MRet M := @ret.
#[global] Instance M_bind : MBind M := λ A B k m, bind m k.

Definition lift {A} (r : result A) : M A :=
  λ w, match r with
       | Return a => (Returns a, w)
       | Raise e => (Raises e, w)
       end.

Definition get_self : M t := λ w, (Returns (self w), w).
Definition modify (f : t → t) : M unit :=
  λ w, (Returns tt, World (f (self w)) (trace w)).
Definition emit (c : call) : M unit :=
  λ w, (Returns tt, World (self w) (trace w ++ [Event c (thread_lock (self w))])).

(** [for x in l: body(x)] *)
Fixpoint for_ {X} (l : list X) (body : X → M unit) : M unit :=
  match l with
  | [] => ret tt
  | x :: l' => bind (body x) (λ _, for_ l' body)
  end.

(** [try: body / except KeyError as e: raise handler(e)] *)
Definition except_KeyError {A} (body : M A) (handler : pyval → exn) : M A :=
  λ w, match body w with
       | (Raises (KeyError k), w') => (Raises (handler k), w')
       | r => r
       end.

(** [x + v] for a float [x].  The sum is the exact one: it is the sum that
    binary64 floating point computes when that sum is representable, as it
    is for the times singled out by [exact_time] below; rounding and
    overflow are not represented. *)
Definition float_add (x : Qc) (v : pyval) : result Qc :=
  match v with
  | VNum q => Return (x + q)%Qc
  | VBool b => Return (x + (if b then 1 else 0))%Qc
  | VNone | VStr _ => Raise (TypeError "unsupported operand type(s) for +")
  end.

(** [time.sleep(d)]: a negative length is refused with [ValueError].  The
    [OverflowError] of a length beyond what the platform can wait for
    (millions of seconds and more) is not represented. *)
Definition time_sleep (d : Qc) : M unit :=
  if bool_decide (d < 0)%Qc
  then lift (Raise (ValueError "sleep length must be non-negative"))
  else emit (Sleep d).

(** [set_polling]; [create_thread] followed by [start] is the call
    [ThreadStart]. *)
Definition set_polling (should_poll : bool) : M unit :=
  c ← get_self;
  (if should_poll && negb (polling c) then emit ThreadStart else ret tt) ;;
  modify (set_polling_flag should_poll).

(** [while(self.thread_lock): time.sleep(0.001)] *)
Definition wait_unlocked : M unit :=
  λ w, if thread_lock (self w) then (Blocked, w) else (Returns tt, w).

(** [aquire_lock] *)
Definition aquire_lock : M unit :=
  wait_unlocked ;;
  modify (set_thread_lock true).

(** [if not tag in updates: updates[tag] = []
     updates[tag].append((3.14159, ts))] *)
Definition add_sample (ts : Qc) (updates : gmap pyval (list (Qc * Qc))) (tag : pyval)
  : gmap pyval (list (Qc * Qc)) :=
  let updates :=
    if bool_decide (is_Some (updates !! tag)) then updates
    else <[tag := []]> updates in
  alter (λ samples, samples ++ [(sample_value, ts)]) tag updates.

(** One turn of the loop of [poll]; [ts] and [now] are the two readings of
    [time.time()] that the turn makes. *)
Definition poll_cycle (ts now : Qc) : M unit :=
  wait_unlocked ;;
  modify (set_thread_lock true) ;;
  c ← get_self;
  let updates := foldl (add_sample ts) ∅ (polled_tags c) in
  emit (StoreUpdates updates) ;;
  modify (set_thread_lock false) ;;
  c ← get_self;
  deadline ← lift (float_add ts (_pollrate c));
  time_sleep (deadline - now).

(** [poll]: [while(self.polling)] over the turns for which [clock] holds
    readings.  Returns [true] when the loop is left because [polling] is
    false, [false] when the readings run out first. *)
Fixpoint poll (clock : list (Qc * Qc)) : M bool :=
  c ← get_self;
  if polling c then
    match clock with
    | [] => ret false
    | (ts, now) :: clock' => poll_cycle ts now ;; poll clock'
    end
  else ret true.

(** [new_tag]; [tag_types] is the global table [TAG_TYPES].  The
    caller's dictionary is updated in place: [new_tag_params] is its
    content after the call. *)
Definition new_tag_params (c : t) (params : dict) : dict :=
  <["connection_id" := id c]> params.

Definition new_tag (tag_types : gmap string tag_class) (models : orm_models)
    (params : dict) : M tag_obj :=
  c ← get_self;
  let params := new_tag_params c params in
  except_KeyError
    (c ← get_self;
     cls ← lift (getitem tag_types (connection_type c));
     tag ← lift (construct models cls params);
     key ← lift (getitem params "id");
     modify (λ c, set_tags (<[key := tag]> (tags c)) c) ;;
     c ← get_self;
     key ← lift (getitem params "id");
     lift (getitem_v (tags c) key))
    UnknownTagType.

(** [self.polled_tags.append(tag)], [.remove(tag)] and [.pop(i)] *)
Definition polled_append (tag : pyval) : M unit :=
  modify (λ c, set_polled_tags (polled_tags c ++ [tag]) c).

Definition polled_remove (tag : pyval) : M unit :=
  c ← get_self;
  polled ← lift (py_remove tag (polled_tags c));
  modify (set_polled_tags polled).

Definition polled_pop (i : nat) : M unit :=
  c ← get_self;
  polled ← lift (py_pop i (polled_tags c));
  modify (set_polled_tags polled).

(** The tail shared by [update_polled_tags] and [remove_polled_tags]:
    the hit list, the popping loop, [set_polling], the release. *)
Definition prune_and_release (sub_tags : list pyval) : M unit :=
  c ← get_self;
  let hl := hitlist sub_tags (polled_tags c) in
  for_ (range_down (length hl)) polled_pop ;;
  c ← get_self;
  set_polling (negb (bool_decide (length (polled_tags c) = 0))) ;;
  modify (set_thread_lock false).

(** [update_polled_tags]; [sub_tags] is a list of the caller's own, not
    [self.polled_tags] itself. *)
Definition update_polled_tags (sub_tags : list pyval) : M unit :=
  aquire_lock ;;
  for_ sub_tags (λ tag,
    c ← get_self;
    if negb (py_in tag (polled_tags c)) then polled_append tag else ret tt) ;;
  prune_and_release sub_tags.

(** [remove_polled_tags]; [sub_tags] is a list of the caller's own, not
    [self.polled_tags] itself (for that call see
    [remove_polled_tags_of_itself] below). *)
Definition remove_polled_tags (sub_tags : list pyval) : M unit :=
  aquire_lock ;;
  for_ sub_tags (λ tag,
    c ← get_self;
    if py_in tag (polled_tags c) then polled_remove tag else ret tt) ;;
  prune_and_release sub_tags.

End Connection.

Module LogixConnection.

Record t := mk {
  base : Connection.t;
  orm_ : orm;
  _auto_connect : pyval;
  _port : pyval;
  _host : pyval }.

(** [LogixConnection.__init__] *)
Definition __init__ (models : orm_models) (params : dict) : result t :=
  c ← Connection.__init__ models params;
  let c := Connection.set_connection_type "logix" c in
  o ← getitem models "connection-params-logix";
  let c := Connection.set_pollrate (py_or (get params "pollrate") (VNum 1)) c in
  let auto_connect := py_or (get params "auto_connect") (VBool false) in
  let port := py_or (get params "port") (VNum (Q2Qc (inject_Z 44818))) in
  host ← except_KeyError
           (Return (py_or (get params "host") (VStr "127.0.0.1")))
           MissingProperty;
  Return (mk c o auto_connect port host).

End LogixConnection.

(** ** Runs

    A connection as the control path drives it: a sequence of calls, each
    started on the state the previous one left. *)

Inductive control_call :=
| UpdatePolledTags (sub_tags : list pyval)
| RemovePolledTags (sub_tags : list pyval).

Definition control_step (op : control_call) : Connection.M unit :=
  match op with
  | UpdatePolledTags sub_tags => Connection.update_polled_tags sub_tags
  | RemovePolledTags sub_tags => Connection.remove_polled_tags sub_tags
  end.

Definition control_run (ops : list control_call) : Connection.M unit :=
  Connection.for_ ops control_step.

(** The state in which a freshly built connection starts. *)
Definition initially (c : Connection.t) : Connection.world := Connection.World c [].

(** The table of models that [database.py] is expected to declare. *)
Definition declared_models : orm_models :=
  {[ "connection-params-local" := OrmModel "connection-params-local";
     "connection-params-logix" := OrmModel "connection-params-logix";
     "tag-params-local" := OrmModel "tag-params-local";
     "tag-params-logix" := OrmModel "tag-params-logix" ]}.

(** [{'id': 'c1', 'connection_type': 'local'}] and the connection built from it. *)
Definition c1_params : dict :=
  {[ "id" := VStr "c1"; "connection_type" := VStr "local" ]}.

Definition c1 : Connection.t :=
  Connection.mk (VStr "c1") "local" (VStr "") ∅ (VNum Connection.default_pollrate)
    (OrmModel "connection-params-local") [] false false.

(** The connection [c1] as [update_polled_tags(["t1"])] leaves it: polling
    the tag "t1". *)
Definition c1_polling : Connection.t :=
  Connection.set_polling_flag true (Connection.set_polled_tags [VStr "t1"] c1).

(** ** What a control call leaves behind

    [settled l c] is the connection as the tail shared by
    [update_polled_tags] and [remove_polled_tags] leaves it when the popping
    loop has left the list [l]; [thread_started l c] is what that tail adds
    to the trace. *)

Definition settled (l : list pyval) (c : Connection.t) : Connection.t :=
  Connection.set_thread_lock false
    (Connection.set_polling_flag (negb (bool_decide (length l = 0%nat)))
       (Connection.set_polled_tags l c)).

Definition thread_started (l : list pyval) (c : Connection.t) : list Connection.event :=
  if negb (bool_decide (length l = 0%nat)) && negb (Connection.polling c)
  then [Connection.Event Connection.ThreadStart true]
  else [].

(** ** Reading a trace *)

(** Is the event a call of the update sink? *)
Definition sink_call (ev : Connection.event) : bool :=
  match Connection.ev_call ev with
  | Connection.StoreUpdates _ => true
  | _ => false
  end.

(** Every call of the update sink in the trace was made with the lock
    released. *)
Definition sink_calls_unlocked (tr : list Connection.event) : bool :=
  forallb (λ ev, implb (sink_call ev) (negb (Connection.ev_locked ev))) tr.

(** Every call of the update sink in the trace was made with the lock held. *)
Definition sink_calls_locked (tr : list Connection.event) : bool :=
  forallb (λ ev, implb (sink_call ev) (Connection.ev_locked ev)) tr.

(** A caller that makes the calls [new_tag(params)] one after the other,
    going on after a failure. *)
Fixpoint new_tag_attempts (tag_types : gmap string tag_class) (models : orm_models)
    (calls : list dict) (w : Connection.world)
  : list (Connection.outcome tag_obj) * Connection.world :=
  match calls with
  | [] => ([], w)
  | params :: rest =>
      let (o, w') := Connection.new_tag tag_types models params w in
      let (os, w'') := new_tag_attempts tag_types models rest w' in
      (o :: os, w'')
  end.


(** ** Reading the database

    The class methods [get_params_from_db] and the method
    [load_tags_from_db] read rows through an SQLAlchemy session.  A row is
    the mapped instance: its column attributes by name, an attribute
    without a value reading [None].  A session is what its queries range
    over: the rows of the table mapped by each model, in the order the
    database returns them. *)

Module Db.

Abbreviation row := (gmap string pyval).

Abbreviation session := (orm → list row).

(** [row.name] *)
Definition attr (r : row) (name : string) : pyval := default VNone (r !! name).

(** [query.filter(orm.column == v)] *)
Definition filter_eq (column : string) (v : pyval) (rows : list row) : list row :=
  filter (λ r, attr r column = v) rows.

(** [query.first()] *)
Definition first (rows : list row) : option row := head rows.

(** What a class method that reads the database ends with: a value, an
    exception of the engine, or the [AttributeError] of a method call on
    [None]. *)
Inductive loaded (A : Type) :=
| Loaded (a : A)
| Failed (e : exn)
| AttributeError (msg : string).
Arguments Loaded {A} a.
Arguments Failed {A} e.
Arguments AttributeError {A} msg.

Definition of_result {A} (r : result A) : loaded A :=
  match r with
  | Return a => Loaded a
  | Raise e => Failed e
  end.

End Db.

(** [Connection.get_params_from_db]; the result [None] is Python's [None]. *)
Definition Connection_get_params_from_db (models : orm_models) (session : Db.session)
    (id : pyval) : result (option dict) :=
  orm ← getitem models "connection-params-local";
  let conn := Db.first (Db.filter_eq "id" id (session orm)) in
  Return (match conn with
          | Some conn =>
              Some {[ "id" := Db.attr conn "id";
                      "connection_type" := Db.attr conn "connection_type";
                      "description" := Db.attr conn "description" ]}
          | None => None
          end).

(** [LogixConnection.get_params_from_db]; [params.update(d)] is the union
    that prefers [d], and is an [AttributeError] when [params] is [None]. *)
Definition LogixConnection_get_params_from_db (models : orm_models)
    (session : Db.session) (id : pyval) : Db.loaded (option dict) :=
  match Connection_get_params_from_db models session id with
  | Raise e => Db.Failed e
  | Return params =>
      match getitem models "connection-params-logix" with
      | Raise e => Db.Failed e
      | Return orm =>
          match Db.first (Db.filter_eq "id" id (session orm)) with
          | Some conn =>
              match params with
              | Some params =>
                  Db.Loaded
                    (Some ({[ "pollrate" := Db.attr conn "pollrate";
                              "auto_connect" := Db.attr conn "auto_connect";
                              "host" := Db.attr conn "host";
                              "port" := Db.attr conn "port" ]} ∪ params))
              | None =>
                  Db.AttributeError "'NoneType' object has no attribute 'update'"
              end
          | None => Db.Loaded params
          end
      end
  end.

(** [Connection.load_tags_from_db]; [tag_types] is the global table
    [TAG_TYPES].  The class method [get_params_from_db] of the tag classes
    starts in [tag.py], which is not part of the code under verification:
    it is the parameter [class_get_params].  [new_tag(None)] fails on its
    first statement, the assignment to [params['connection_id']]. *)
Definition load_tags_from_db (tag_types : gmap string tag_class)
    (class_get_params : tag_class → Db.session → pyval → pyval → result (option dict))
    (models : orm_models) (session : Db.session) : Connection.M unit :=
  orm ← Connection.lift (getitem models "tag-params-local");
  c ← Connection.get_self;
  let tags := Db.filter_eq "connection_id" (Connection.id c) (session orm) in
  Connection.for_ tags (λ tag,
    c ← Connection.get_self;
    cls ← Connection.lift (getitem tag_types (Connection.connection_type c));
    params ← Connection.lift
               (class_get_params cls session (Db.attr tag "id") (Connection.id c));
    match params with
    | Some params => Connection.new_tag tag_types models params ;; Connection.ret tt
    | None =>
        Connection.lift
          (Raise (TypeError "'NoneType' object does not support item assignment"))
    end).

(** [LogixTag.get_params_from_db].  The method of the base class that it
    calls first is in [tag.py], which is not part of the code under
    verification: it is the parameter [tag_get_params]. *)
Definition LogixTag_get_params_from_db
    (tag_get_params : Db.session → pyval → pyval → result (option dict))
    (models : orm_models) (session : Db.session) (id connection_id : pyval)
  : Db.loaded (option dict) :=
  match tag_get_params session id connection_id with
  | Raise e => Db.Failed e
  | Return params =>
      match getitem models "tag-params-logix" with
      | Raise e => Db.Failed e
      | Return orm =>
          match Db.first (Db.filter_eq "connection_id" connection_id
                            (Db.filter_eq "id" id (session orm))) with
          | Some tag =>
              match params with
              | Some params =>
                  Db.Loaded (Some ({[ "address" := Db.attr tag "address" ]} ∪ params))
              | None =>
                  Db.AttributeError "'NoneType' object has no attribute 'update'"
              end
          | None => Db.Loaded params
          end
      end
  end.


(** ** A control call on the polled list itself

    [remove_polled_tags(self.polled_tags)]: the argument is the very list
    the method shortens.  The iterator of [for tag in sub_tags] is a
    position in that list: each turn reads the element at the position,
    if the list still has one there, and moves on by one.  [turns] bounds
    the number of turns; the length of the list at the start is enough,
    since the list never grows. *)

Section OwnList.
Context {A : Type} `{EqDecision A}.

(** [for tag in polled: if tag in polled: polled.remove(tag)] *)
Fixpoint remove_from_itself (turns i : nat) (polled : list A) : result (list A) :=
  match turns with
  | 0 => Return polled
  | S turns =>
      match polled !! i with
      | None => Return polled
      | Some tag =>
          if py_in tag polled
          then polled' ← py_remove tag polled; remove_from_itself turns (S i) polled'
          else remove_from_itself turns (S i) polled
      end
  end.

(** The elements at the second, fourth, ... place. *)
Fixpoint odds (l : list A) : list A :=
  match l with
  | [] => []
  | _ :: l' =>
      match l' with
      | [] => []
      | y :: rest => y :: odds rest
      end
  end.
End OwnList.

(** [remove_polled_tags(self.polled_tags)].  In the hit-list loop
    [sub_tags] is the polled list as the first loop left it. *)
Definition remove_polled_tags_of_itself : Connection.M unit :=
  Connection.aquire_lock ;;
  c ← Connection.get_self;
  polled ← Connection.lift
             (remove_from_itself (length (Connection.polled_tags c)) 0
                (Connection.polled_tags c));
  Connection.modify (Connection.set_polled_tags polled) ;;
  c ← Connection.get_self;
  Connection.prune_and_release (Connection.polled_tags c).

(** * Properties *)

(** ** The list loops *)

Section PolledListFacts.
Context {A : Type} `{EqDecision A}.
Implicit Types (l sub : list A) (x : A).

Lemma range_down_S (k : nat) : range_down (S k) = k :: range_down k.
Proof.
  unfold range_down. rewrite seq_S, reverse_app. reflexivity.
Qed.

(** Popping the positions [k-1], ..., [0] in turn removes the first [k]
    elements, whatever they are. *)
Lemma pop_each_range_down (k : nat) l :
  (k ≤ length l)%nat → pop_each (range_down k) l = Return (drop k l).
Proof.
  revert l. induction k as [|k IH]; intros l Hk.
  - reflexivity.
  - rewrite range_down_S. cbn [pop_each]. unfold py_pop.
    destruct (decide (k < length l)) as [Hlt|]; [|lia].
    cbn. rewrite IH.
    + f_equal. apply drop_app_length'. rewrite length_take. lia.
    + rewrite length_app, length_take, length_drop. lia.
Qed.

Lemma hitlist_length_from sub (f : nat → nat) l acc :
  length (foldl (λ hl (it : nat * A), if py_in it.2 sub then hl else hl ++ [it.1])
                acc (imap (λ i x, (f i, x)) l))
  = length acc + length (filter (λ x, x ∉ sub) l).
Proof.
  revert f acc. induction l as [|x l IH]; intros f acc.
  - cbn. lia.
  - cbn [imap foldl]. rewrite (IH (f ∘ S)). cbn [snd fst].
    unfold py_in. rewrite filter_cons.
    destruct (decide (x ∈ sub)) as [Hin|Hin].
    + rewrite bool_decide_eq_true_2 by done.
      destruct (decide (x ∉ sub)); [done | lia].
    + rewrite bool_decide_eq_false_2 by done.
      destruct (decide (x ∉ sub)); [|done].
      rewrite length_app. cbn. lia.
Qed.

(** Only the length of the hit list is used: it counts the elements of
    the list that are not in [sub]. *)
Lemma hitlist_length sub l :
  length (hitlist sub l) = length (filter (λ x, x ∉ sub) l).
Proof. apply (hitlist_length_from sub (λ i, i) l []). Qed.

Lemma hitlist_length_le sub l : (length (hitlist sub l) ≤ length l)%nat.
Proof. rewrite hitlist_length. apply length_filter. Qed.

Lemma pop_hitlist_drop sub l :
  pop_hitlist (hitlist sub l) l = Return (drop (length (hitlist sub l)) l).
Proof. apply pop_each_range_down, hitlist_length_le. Qed.

Lemma length_filter_all (P : A → Prop) `{∀ x, Decision (P x)} l :
  (∀ x, x ∈ l → P x) → length (filter P l) = length l.
Proof.
  induction l as [|x l IH]; intros HP; [done|].
  rewrite filter_cons. destruct (decide (P x)) as [|Hn].
  - cbn. rewrite IH; [done|]. intros y Hy. apply HP. by right.
  - destruct Hn. apply HP. by left.
Qed.

Lemma NoDup_drop (n : nat) l : NoDup l → NoDup (drop n l).
Proof. intros Hl. eapply sublist_NoDup; [done | apply sublist_drop]. Qed.

(** *** First loop of [update_polled_tags] *)

Lemma append_missing_NoDup sub l : NoDup l → NoDup (append_missing sub l).
Proof.
  unfold append_missing. revert l.
  induction sub as [|x sub IH]; intros l Hl; [done|].
  cbn [foldl]. apply IH. unfold py_in. case_bool_decide as Hx; [done|].
  apply NoDup_app. split_and!; [done| |apply NoDup_singleton].
  intros y Hy ->%list_elem_of_singleton. done.
Qed.

Lemma append_missing_elem sub l x :
  x ∈ append_missing sub l ↔ x ∈ l ∨ x ∈ sub.
Proof.
  unfold append_missing. revert l.
  induction sub as [|y sub IH]; intros l.
  - cbn. set_solver.
  - cbn [foldl]. rewrite IH. unfold py_in. case_bool_decide; set_solver.
Qed.

(** *** First loop of [remove_polled_tags] *)

Lemma py_remove_elem x l :
  x ∈ l →
  ∃ l', py_remove x l = Return l' ∧ l' `sublist_of` l ∧ (NoDup l → x ∉ l').
Proof.
  induction l as [|y l IH]; intros Hx; [by apply not_elem_of_nil in Hx|].
  cbn [py_remove]. destruct (decide (x = y)) as [->|Hne].
  - exists l. split_and!; [done | by apply sublist_cons |].
    by intros [? ?]%NoDup_cons.
  - destruct IH as (l' & -> & Hsub & Hnd); [set_solver|].
    exists (y :: l'). split_and!; [done | by apply sublist_skip |].
    intros [? ?]%NoDup_cons. set_solver.
Qed.

Lemma remove_present_returns sub l :
  ∃ l', remove_present sub l = Return l' ∧ l' `sublist_of` l
        ∧ (NoDup l → ∀ x, x ∈ l' → x ∉ sub).
Proof.
  revert l. induction sub as [|y sub IH]; intros l.
  - exists l. split_and!; [done | done | set_solver].
  - cbn [remove_present]. unfold py_in. case_bool_decide as Hy.
    + destruct (py_remove_elem y l Hy) as (l1 & -> & Hsub1 & Hnd1).
      destruct (IH l1) as (l' & Hl' & Hsub & Hnd). cbn.
      exists l'. split_and!; [done | by etrans |].
      intros Hl x Hx.
      assert (NoDup l1) by by eapply sublist_NoDup.
      assert (x ∈ l1) by by eapply sublist_subseteq.
      assert (x ≠ y) by (intros ->; by apply Hnd1).
      specialize (Hnd ltac:(done) x Hx). set_solver.
    + destruct (IH l) as (l' & Hl' & Hsub & Hnd).
      exists l'. split_and!; [done | done |].
      intros Hl x Hx.
      assert (x ∈ l) by by eapply sublist_subseteq.
      specialize (Hnd Hl x Hx). set_solver.
Qed.

(** *** The list parts as a whole *)

Lemma updated_list_drop sub l :
  updated_list sub l =
  Return (drop (length (hitlist sub (append_missing sub l))) (append_missing sub l)).
Proof. apply pop_hitlist_drop. Qed.

Lemma removed_list_returns sub l :
  ∃ l1, remove_present sub l = Return l1 ∧ l1 `sublist_of` l
        ∧ removed_list sub l = Return (drop (length (hitlist sub l1)) l1).
Proof.
  destruct (remove_present_returns sub l) as (l1 & Hl1 & Hsub & _).
  exists l1. split_and!; [done | done |].
  unfold removed_list. rewrite Hl1. apply pop_hitlist_drop.
Qed.

(** On a list without duplicates, the popping loop of
    [remove_polled_tags] removes everything the first loop left. *)
Lemma removed_list_NoDup_nil sub l :
  NoDup l → removed_list sub l = Return [].
Proof.
  intros Hl.
  destruct (remove_present_returns sub l) as (l1 & Hl1 & Hsub & Hnot).
  unfold removed_list. rewrite Hl1. cbn. rewrite pop_hitlist_drop.
  f_equal. apply drop_ge. rewrite hitlist_length.
  rewrite length_filter_all; [done|]. intros x Hx. by apply Hnot.
Qed.
End PolledListFacts.

(** ** The methods, run on a connection *)

Section ConnectionRuns.
Import Connection.
Implicit Types (c : t) (tr : list event) (sub : list pyval).

Lemma bind_run {X Y} (m : M X) (k : X → M Y) w :
  (m ≫= k) w =
  match m w with
  | (Returns a, w') => k a w'
  | (Raises e, w') => (Raises e, w')
  | (Blocked, w') => (Blocked, w')
  end.
Proof. reflexivity. Qed.

Lemma aquire_lock_free c tr :
  thread_lock c = false →
  aquire_lock (World c tr) = (Returns tt, World (set_thread_lock true c) tr).
Proof.
  intros Hfree. unfold aquire_lock. rewrite bind_run.
  unfold wait_unlocked. cbn. rewrite Hfree. reflexivity.
Qed.

Lemma aquire_lock_held c tr :
  thread_lock c = true → aquire_lock (World c tr) = (Blocked, World c tr).
Proof.
  intros Hheld. unfold aquire_lock. rewrite bind_run.
  unfold wait_unlocked. cbn. rewrite Hheld. reflexivity.
Qed.

Lemma set_polled_tags_same c : set_polled_tags (polled_tags c) c = c.
Proof. by destruct c. Qed.

Lemma polled_append_run x c tr :
  polled_append x (World c tr)
  = (Returns tt, World (set_polled_tags (polled_tags c ++ [x]) c) tr).
Proof. reflexivity. Qed.

Lemma polled_remove_run x c tr l0 :
  py_remove x (polled_tags c) = Return l0 →
  polled_remove x (World c tr) = (Returns tt, World (set_polled_tags l0 c) tr).
Proof.
  intros Hl0. unfold polled_remove. rewrite !bind_run. cbn [get_self self].
  rewrite Hl0. reflexivity.
Qed.

Lemma polled_pop_run i c tr l0 :
  py_pop i (polled_tags c) = Return l0 →
  polled_pop i (World c tr) = (Returns tt, World (set_polled_tags l0 c) tr).
Proof.
  intros Hl0. unfold polled_pop. rewrite !bind_run. cbn [get_self self].
  rewrite Hl0. reflexivity.
Qed.

(** The first loop of [update_polled_tags] computes [append_missing]. *)
Lemma append_loop_run sub c tr :
  for_ sub (λ tag,
      c ← get_self;
      if negb (py_in tag (polled_tags c)) then polled_append tag else ret tt)
    (World c tr)
  = (Returns tt, World (set_polled_tags (append_missing sub (polled_tags c)) c) tr).
Proof.
  revert c. induction sub as [|x sub IH]; intros c.
  - cbn. by rewrite set_polled_tags_same.
  - cbn [for_]. unfold bind at 1. cbv beta. rewrite bind_run.
    cbn [get_self self]. unfold append_missing. cbn [foldl].
    destruct (py_in x (polled_tags c)); cbn [negb].
    + unfold ret at 1. apply IH.
    + rewrite polled_append_run, IH. reflexivity.
Qed.

(** The first loop of [remove_polled_tags] computes [remove_present]. *)
Lemma remove_loop_run sub c tr l1 :
  remove_present sub (polled_tags c) = Return l1 →
  for_ sub (λ tag,
      c ← get_self;
      if py_in tag (polled_tags c) then polled_remove tag else ret tt)
    (World c tr)
  = (Returns tt, World (set_polled_tags l1 c) tr).
Proof.
  revert c. induction sub as [|x sub IH]; intros c Hl1.
  - cbn in Hl1. injection Hl1 as <-. cbn. by rewrite set_polled_tags_same.
  - cbn [for_]. unfold bind at 1. cbv beta. rewrite bind_run.
    cbn [get_self self]. cbn [remove_present] in Hl1.
    destruct (py_in x (polled_tags c)).
    + destruct (py_remove x (polled_tags c)) as [l0|e] eqn:Hl0; [|done].
      rewrite (polled_remove_run _ _ _ _ Hl0).
      rewrite (IH (set_polled_tags l0 c)); [reflexivity | exact Hl1].
    + unfold ret at 1. by apply IH.
Qed.

(** The popping loop computes [pop_each]. *)
Lemma pop_loop_run idxs c tr l1 :
  pop_each idxs (polled_tags c) = Return l1 →
  for_ idxs polled_pop (World c tr) = (Returns tt, World (set_polled_tags l1 c) tr).
Proof.
  revert c. induction idxs as [|i idxs IH]; intros c Hl1.
  - cbn in Hl1. injection Hl1 as <-. cbn. by rewrite set_polled_tags_same.
  - cbn [for_]. unfold bind at 1. cbn [pop_each] in Hl1.
    destruct (py_pop i (polled_tags c)) as [l0|e] eqn:Hl0; [|done].
    rewrite (polled_pop_run _ _ _ _ Hl0).
    rewrite (IH (set_polled_tags l0 c)); [reflexivity | exact Hl1].
Qed.

Lemma set_polling_run (b : bool) c tr :
  set_polling b (World c tr)
  = (Returns tt,
     World (set_polling_flag b c)
           (tr ++ if b && negb (polling c)
                  then [Event ThreadStart (thread_lock c)] else [])).
Proof.
  unfold set_polling. rewrite !bind_run. cbn [get_self self].
  destruct (b && negb (polling c)); cbn.
  - reflexivity.
  - by rewrite app_nil_r.
Qed.

(** The tail shared by the two control calls, entered with the lock held. *)
Lemma prune_and_release_run sub c tr :
  thread_lock c = true →
  let l := drop (length (hitlist sub (polled_tags c))) (polled_tags c) in
  prune_and_release sub (World c tr)
  = (Returns tt, World (settled l c) (tr ++ thread_started l c)).
Proof.
  intros Hheld l. unfold prune_and_release.
  rewrite bind_run. cbn [get_self self]. rewrite bind_run.
  rewrite (pop_loop_run _ c tr l) by apply pop_hitlist_drop.
  rewrite bind_run. cbn [get_self self polled_tags set_polled_tags].
  rewrite bind_run, set_polling_run. unfold modify. cbn [self trace].
  unfold thread_started. cbn [polling thread_lock set_polled_tags].
  rewrite Hheld. reflexivity.
Qed.

Lemma update_polled_tags_run sub c tr :
  thread_lock c = false →
  let l1 := append_missing sub (polled_tags c) in
  let l := drop (length (hitlist sub l1)) l1 in
  update_polled_tags sub (World c tr)
  = (Returns tt, World (settled l c) (tr ++ thread_started l c)).
Proof.
  intros Hfree l1 l. unfold update_polled_tags.
  rewrite bind_run, (aquire_lock_free _ _ Hfree).
  rewrite bind_run, append_loop_run.
  rewrite prune_and_release_run by reflexivity.
  reflexivity.
Qed.

Lemma remove_polled_tags_run sub c tr :
  thread_lock c = false →
  ∃ l1, remove_present sub (polled_tags c) = Return l1
        ∧ l1 `sublist_of` polled_tags c
        ∧ let l := drop (length (hitlist sub l1)) l1 in
          remove_polled_tags sub (World c tr)
          = (Returns tt, World (settled l c) (tr ++ thread_started l c)).
Proof.
  intros Hfree.
  destruct (remove_present_returns sub (polled_tags c)) as (l1 & Hl1 & Hsub & _).
  exists l1. split_and!; [done | done |]. intros l.
  unfold remove_polled_tags.
  rewrite bind_run, (aquire_lock_free _ _ Hfree).
  rewrite bind_run, (remove_loop_run _ _ _ l1) by exact Hl1.
  rewrite prune_and_release_run by reflexivity.
  reflexivity.
Qed.

(** The list each call leaves is the one its list part computes. *)
Lemma update_polled_tags_list sub c tr :
  thread_lock c = false →
  updated_list sub (polled_tags c)
  = Return (polled_tags (self (update_polled_tags sub (World c tr)).2)).
Proof.
  intros Hfree. rewrite update_polled_tags_run by done. apply updated_list_drop.
Qed.

Lemma remove_polled_tags_list sub c tr :
  thread_lock c = false →
  removed_list sub (polled_tags c)
  = Return (polled_tags (self (remove_polled_tags sub (World c tr)).2)).
Proof.
  intros Hfree.
  destruct (remove_polled_tags_run sub c tr Hfree) as (l1 & Hl1 & _ & Hrun).
  cbn zeta in Hrun. rewrite Hrun. unfold removed_list. rewrite Hl1.
  apply pop_hitlist_drop.
Qed.

(** A control call made while the lock is held does not return. *)
Lemma control_step_held op c tr :
  thread_lock c = true → control_step op (World c tr) = (Blocked, World c tr).
Proof.
  intros Hheld.
  destruct op; cbn [control_step];
    unfold update_polled_tags, remove_polled_tags;
    by rewrite bind_run, (aquire_lock_held _ _ Hheld).
Qed.

(** A control call made while the lock is free returns, with the lock
    free again, and keeps the list free of duplicates. *)
Lemma control_step_run op c tr :
  thread_lock c = false →
  ∃ l, control_step op (World c tr)
       = (Returns tt, World (settled l c) (tr ++ thread_started l c))
       ∧ (NoDup (polled_tags c) → NoDup l).
Proof.
  intros Hfree. destruct op as [sub|sub]; cbn [control_step].
  - eexists. split; [by apply update_polled_tags_run|].
    intros Hnd. by apply NoDup_drop, append_missing_NoDup.
  - destruct (remove_polled_tags_run sub c tr Hfree) as (l1 & _ & Hsub & Hrun).
    eexists. split; [exact Hrun|].
    intros Hnd. apply NoDup_drop. by eapply sublist_NoDup.
Qed.

Lemma control_run_NoDup ops c tr :
  thread_lock c = false →
  NoDup (polled_tags c) →
  ∃ w, control_run ops (World c tr) = (Returns tt, w)
       ∧ thread_lock (self w) = false
       ∧ NoDup (polled_tags (self w)).
Proof.
  revert c tr. induction ops as [|op ops IH]; intros c tr Hfree Hnd.
  - eexists. split_and!; [reflexivity | done | done].
  - destruct (control_step_run op c tr Hfree) as (l & Hstep & Hl).
    unfold control_run. cbn [for_]. unfold bind at 1. rewrite Hstep.
    apply (IH (settled l c)); [reflexivity | by apply Hl].
Qed.

Lemma init_starts models params c :
  __init__ models params = Return c →
  polled_tags c = [] ∧ thread_lock c = false ∧ polling c = false
  ∧ tags c = ∅ ∧ connection_type c = "local".
Proof.
  unfold __init__, getitem, Py.except_KeyError. cbn.
  destruct (params !! "id"); cbn; [|done].
  destruct (params !! "connection_type"); cbn; [|done].
  destruct (models !! "connection-params-local"); cbn; [|done].
  intros [= <-]. done.
Qed.
End ConnectionRuns.

(** ** The polled-tag list under the control calls *)

Section PolledTags.
Import Connection.
Implicit Types (c : t) (tr : list event) (sub : list pyval).

Lemma c1_built : __init__ declared_models c1_params = Return c1.
Proof. vm_compute. reflexivity. Qed.

(** The example of the spec: the stale tag is at the front of the list,
    which is where the popping loop removes. *)
Lemma update_t1_t2_then_t2 :
  ∃ w, control_run [UpdatePolledTags [VStr "t1"; VStr "t2"];
                    UpdatePolledTags [VStr "t2"]] (initially c1)
       = (Returns tt, w)
       ∧ polled_tags (self w) = [VStr "t2"].
Proof. eexists. split; vm_compute; reflexivity. Qed.

(** C1: [update_polled_tags] is to leave exactly the ids it is given.  It
    does not: after [update_polled_tags(["t1","t2"])], the call
    [update_polled_tags(["t1"])] finds one stale id and pops position 0,
    which holds "t1": the list that remains is ["t2"]. *)
Theorem update_polled_tags_pops_the_front :
  ∃ w, control_run [UpdatePolledTags [VStr "t1"; VStr "t2"];
                    UpdatePolledTags [VStr "t1"]] (initially c1)
       = (Returns tt, w)
       ∧ polled_tags (self w) = [VStr "t2"]
       ∧ (VStr "t1" ∉ polled_tags (self w))
       ∧ (VStr "t2" ∈ polled_tags (self w)).
Proof.
  eexists. split; [vm_compute; reflexivity|]. cbn.
  split_and!; [done | by rewrite list_elem_of_singleton | by apply list_elem_of_singleton].
Qed.

(** What [update_polled_tags] leaves in general: the list extended with
    the new ids, minus as many leading elements as there are stale ids. *)
Lemma update_polled_tags_leaves sub c tr :
  thread_lock c = false →
  let l1 := append_missing sub (polled_tags c) in
  polled_tags (self (update_polled_tags sub (World c tr)).2)
  = drop (length (filter (λ x, x ∉ sub) l1)) l1.
Proof.
  intros Hfree l1. rewrite update_polled_tags_run by done.
  cbn. by rewrite hitlist_length.
Qed.

(** C2: [remove_polled_tags] is to remove the given ids only.  It does
    not: on the list ["t1","t2"], [remove_polled_tags(["t1"])] removes
    "t1", then counts "t2" as a hit and pops it too: nothing remains. *)
Theorem remove_polled_tags_pops_the_rest :
  ∃ w, control_run [UpdatePolledTags [VStr "t1"; VStr "t2"];
                    RemovePolledTags [VStr "t1"]] (initially c1)
       = (Returns tt, w)
       ∧ polled_tags (self w) = []
       ∧ (VStr "t2" ∉ polled_tags (self w)).
Proof.
  eexists. split; [vm_compute; reflexivity|]. cbn.
  split; [done | apply not_elem_of_nil].
Qed.

(** What [remove_polled_tags] leaves in general, on a list without
    duplicates: nothing, and polling is switched off. *)
Lemma remove_polled_tags_leaves_nothing sub c tr :
  thread_lock c = false →
  NoDup (polled_tags c) →
  remove_polled_tags sub (World c tr) = (Returns tt, World (settled [] c) tr).
Proof.
  intros Hfree Hnd.
  destruct (remove_polled_tags_run sub c tr Hfree) as (l1 & Hl1 & _ & Hrun).
  pose proof (removed_list_NoDup_nil sub _ Hnd) as Hnil.
  unfold removed_list in Hnil. rewrite Hl1 in Hnil. cbn in Hnil.
  rewrite pop_hitlist_drop in Hnil. injection Hnil as Hnil.
  cbn zeta in Hrun. rewrite Hnil in Hrun. rewrite Hrun.
  unfold thread_started. cbn. by rewrite app_nil_r.
Qed.

(** C5: a control call that acquires the lock returns, and leaves the
    polling flag true when the polled-tag list it leaves is not empty and
    false when it is empty; [update_polled_tags([])] returns and leaves the
    list empty and the flag false, also on a polling connection. *)
Theorem polling_follows_polled_tags c tr :
  thread_lock c = false →
  (∀ op, ∃ w, control_step op (World c tr) = (Returns tt, w)
              ∧ (polled_tags (self w) ≠ [] → polling (self w) = true)
              ∧ (polled_tags (self w) = [] → polling (self w) = false))
  ∧ (∃ w, update_polled_tags [] (World c tr) = (Returns tt, w)
          ∧ polled_tags (self w) = []
          ∧ polling (self w) = false).
Proof.
  intros Hfree. split.
  - intros op. destruct (control_step_run op c tr Hfree) as (l & Hstep & _).
    eexists. split; [exact Hstep|]. cbn. destruct l; cbn; done.
  - pose proof (update_polled_tags_run [] c tr Hfree) as Hrun. cbn zeta in Hrun.
    rewrite drop_ge in Hrun.
    + eexists. split; [exact Hrun | done].
    + rewrite hitlist_length, length_filter_all; [done|].
      intros x _. apply not_elem_of_nil.
Qed.

Lemma polling_follows_polled_tags_witness :
  thread_lock (set_polling_flag true (set_polled_tags [VStr "t1"] c1)) = false
  ∧ ∃ w, update_polled_tags []
           (World (set_polling_flag true (set_polled_tags [VStr "t1"] c1)) [])
         = (Returns tt, w)
         ∧ polled_tags (self w) = []
         ∧ polling (self w) = false.
Proof.
  split; [reflexivity|].
  apply (polling_follows_polled_tags
           (set_polling_flag true (set_polled_tags [VStr "t1"] c1)) []).
  reflexivity.
Defined.

(** C9: the polled-tag list never holds an id twice.  It is empty on
    construction, and every sequence of [update_polled_tags] and
    [remove_polled_tags] calls, whatever their arguments, runs to its end
    and leaves a list without duplicates. *)
Theorem polled_tags_never_duplicated models params c ops :
  __init__ models params = Return c →
  polled_tags c = []
  ∧ ∃ w, control_run ops (initially c) = (Returns tt, w)
         ∧ NoDup (polled_tags (self w)).
Proof.
  intros (Hnil & Hfree & _)%init_starts. split; [done|].
  destruct (control_run_NoDup ops c [] Hfree) as (w & Hrun & _ & Hnd).
  - rewrite Hnil. apply NoDup_nil_2.
  - by exists w.
Qed.

Lemma polled_tags_never_duplicated_witness :
  __init__ declared_models c1_params = Return c1
  ∧ ∃ w, control_run [UpdatePolledTags [VStr "t1"; VStr "t1"; VStr "t2"];
                      RemovePolledTags [VStr "t2"; VStr "t2"]] (initially c1)
         = (Returns tt, w)
         ∧ NoDup (polled_tags (self w)).
Proof.
  split; [exact c1_built|].
  apply (polled_tags_never_duplicated declared_models c1_params c1 _ c1_built).
Defined.
End PolledTags.

(** ** The polling loop *)

Section Polling.
Import Connection.
Implicit Types (c : t) (tr : list event) (ts now : Qc).

(** A turn of the loop that finds the lock free: the batch goes to the sink
    with the lock held, the lock is released, and the sleep that ends the
    turn is refused when the deadline [ts + pollrate] is behind [now]. *)
Lemma poll_cycle_run c tr ts now :
  thread_lock c = false →
  let c' := set_thread_lock false c in
  let tr' := tr ++ [Event (StoreUpdates (foldl (add_sample ts) ∅ (polled_tags c))) true] in
  poll_cycle ts now (World c tr) =
  match float_add ts (_pollrate c) with
  | Raise e => (Raises e, World c' tr')
  | Return deadline =>
      if bool_decide (deadline - now < 0)%Qc
      then (Raises (ValueError "sleep length must be non-negative"), World c' tr')
      else (Returns tt, World c' (tr' ++ [Event (Sleep (deadline - now)) false]))
  end.
Proof.
  intros Hfree c' tr'. unfold poll_cycle.
  rewrite bind_run. unfold wait_unlocked at 1. cbn [self]. rewrite Hfree.
  rewrite bind_run. unfold modify at 1. cbn [self trace].
  rewrite bind_run. cbn [get_self self polled_tags set_thread_lock].
  rewrite bind_run. unfold emit at 1. cbn [self trace thread_lock].
  rewrite bind_run. unfold modify at 1. cbn [self trace].
  rewrite bind_run. cbn [get_self self _pollrate set_thread_lock].
  rewrite bind_run.
  destruct (float_add ts (_pollrate c)) as [deadline|e]; cbn [lift]; [|done].
  unfold time_sleep. destruct (bool_decide (deadline - now < 0)%Qc); reflexivity.
Qed.

Lemma poll_cycle_held c tr ts now :
  thread_lock c = true → poll_cycle ts now (World c tr) = (Blocked, World c tr).
Proof.
  intros Hheld. unfold poll_cycle.
  rewrite bind_run. unfold wait_unlocked at 1. cbn [self]. by rewrite Hheld.
Qed.

(** A turn that overruns its deadline ends with [ValueError]. *)
Lemma poll_cycle_late c tr ts now (pollrate : Qc) :
  thread_lock c = false →
  _pollrate c = VNum pollrate →
  (ts + pollrate < now)%Qc →
  (poll_cycle ts now (World c tr)).1
  = Raises (ValueError "sleep length must be non-negative").
Proof.
  intros Hfree Hrate Hlate. rewrite poll_cycle_run by done.
  rewrite Hrate. cbn [float_add].
  rewrite bool_decide_eq_true_2; [done|].
  apply (proj2 (Qclt_minus_iff _ _)).
  replace (0 + - (ts + pollrate - now))%Qc with (now + - (ts + pollrate))%Qc by ring.
  exact (proj1 (Qclt_minus_iff _ _) Hlate).
Qed.

Lemma c1_polling_reached :
  update_polled_tags [VStr "t1"] (initially c1)
  = (Returns tt, World c1_polling [Event ThreadStart true]).
Proof. vm_compute. reflexivity. Qed.

(** C3: a turn of the loop that takes longer than [pollrate] is to go on
    to the next turn without sleeping and without error.  It does not: on
    the connection [c1] (poll rate 0.5) polling "t1", a turn started at
    time 0 that reaches its sleep at time 1 calls [time.sleep(-0.5)], which
    raises [ValueError]; the loop ends there, after one batch, with the
    polling flag still set. *)
Theorem poll_overrun_ends_in_ValueError :
  ∃ w, poll [(0, 1); (1, 1 + default_pollrate)]%Qc (initially c1_polling)
       = (Raises (ValueError "sleep length must be non-negative"), w)
       ∧ polling (self w) = true
       ∧ length (filter (λ ev, sink_call ev = true) (trace w)) = 1%nat.
Proof. eexists. split_and!; vm_compute; reflexivity. Qed.

(** The turns that keep their deadline do go on: the same loop with
    readings half a second apart sleeps and runs its second turn. *)
Lemma poll_in_time_goes_on :
  ∃ w, poll [(0, 0); (default_pollrate, default_pollrate)]%Qc (initially c1_polling)
       = (Returns false, w)
       ∧ length (filter (λ ev, sink_call ev = true) (trace w)) = 2%nat.
Proof. eexists. split_and!; vm_compute; reflexivity. Qed.

(** C4, as the spec has it, fails: in the turn that [c1] makes while
    polling "t1", the sink is called with the lock held. *)
Lemma poll_cycle_sink_call_is_locked :
  sink_calls_unlocked (trace (poll_cycle 0 0 (initially c1_polling)).2) = false.
Proof. vm_compute. reflexivity. Qed.

(** C4, amended: in every turn of the loop that gets the lock, the batch
    built from the polled tags is handed to the sink while the lock is
    still held; the lock is released after the sink call, and nothing else
    the turn does afterwards is a sink call or is done under the lock. *)
Theorem poll_cycle_submits_under_lock c tr ts now :
  thread_lock c = false →
  ∃ tail,
    trace (poll_cycle ts now (World c tr)).2
    = tr ++ Event (StoreUpdates (foldl (add_sample ts) ∅ (polled_tags c))) true :: tail
    ∧ forallb (λ ev, negb (sink_call ev) && negb (ev_locked ev)) tail = true
    ∧ thread_lock (self (poll_cycle ts now (World c tr)).2) = false.
Proof.
  intros Hfree. rewrite poll_cycle_run by done.
  destruct (float_add ts (_pollrate c)) as [deadline|e].
  - destruct (bool_decide (deadline - now < 0)%Qc).
    + exists []. done.
    + exists [Event (Sleep (deadline - now)) false]. cbn [snd trace].
      by rewrite <- app_assoc.
  - exists []. done.
Qed.

Lemma poll_cycle_submits_under_lock_witness :
  thread_lock c1_polling = false
  ∧ ∃ tail,
      trace (poll_cycle 0 0 (World c1_polling [])).2
      = [] ++ Event (StoreUpdates (foldl (add_sample 0) ∅ (polled_tags c1_polling))) true
              :: tail
      ∧ forallb (λ ev, negb (sink_call ev) && negb (ev_locked ev)) tail = true
      ∧ thread_lock (self (poll_cycle 0 0 (World c1_polling [])).2) = false.
Proof.
  split; [reflexivity|].
  apply (poll_cycle_submits_under_lock c1_polling [] 0%Qc 0%Qc). reflexivity.
Defined.

(** The same over the whole loop: whatever the number of turns and their
    timing, every sink call of the trace is made under the lock. *)
Lemma poll_sink_calls_locked clock c tr :
  sink_calls_locked tr = true →
  sink_calls_locked (trace (poll clock (World c tr)).2) = true.
Proof.
  revert c tr. induction clock as [|[ts now] clock IH]; intros c tr Htr.
  - cbn [poll]. rewrite bind_run. cbn [get_self self].
    by destruct (polling c).
  - cbn [poll]. rewrite bind_run. cbn [get_self self].
    destruct (polling c); [|done]. rewrite bind_run.
    destruct (thread_lock c) eqn:Hlock.
    + by rewrite poll_cycle_held.
    + rewrite poll_cycle_run by done.
      assert (sink_calls_locked
                (tr ++ [Event (StoreUpdates (foldl (add_sample ts) ∅ (polled_tags c))) true])
              = true) as Htr'.
      { unfold sink_calls_locked. rewrite forallb_app.
        fold (sink_calls_locked tr). by rewrite Htr. }
      destruct (float_add ts (_pollrate c)) as [deadline|e]; [|done].
      destruct (bool_decide (deadline - now < 0)%Qc); [done|].
      apply IH. unfold sink_calls_locked. rewrite forallb_app.
      fold (sink_calls_locked
              (tr ++ [Event (StoreUpdates (foldl (add_sample ts) ∅ (polled_tags c))) true])).
      by rewrite Htr'.
Qed.
End Polling.

(** ** Construction *)

Section Construction.
Import Connection.
Implicit Types (params : dict) (models : orm_models).

Lemma init_missing_id models params :
  params !! "id" = None →
  __init__ models params = Raise (MissingProperty (VStr "id")).
Proof. intros Hid. unfold __init__, getitem. cbn. by rewrite Hid. Qed.

Lemma init_missing_connection_type models params :
  is_Some (params !! "id") →
  params !! "connection_type" = None →
  __init__ models params = Raise (MissingProperty (VStr "connection_type")).
Proof.
  intros [v Hid] Hct. unfold __init__, getitem. cbn. by rewrite Hid, Hct.
Qed.

Lemma init_present models params v ct :
  params !! "id" = Some v →
  params !! "connection_type" = Some ct →
  __init__ models params =
  match models !! "connection-params-local" with
  | Some o =>
      Return (mk v "local" (default (VStr "") (params !! "description")) ∅
                 (default (VNum default_pollrate) (params !! "pollrate")) o
                 [] false false)
  | None => Raise (KeyError (VStr "connection-params-local"))
  end.
Proof.
  intros Hid Hct. unfold __init__, getitem, contains, get. cbn.
  rewrite Hid, Hct. cbn.
  destruct (models !! "connection-params-local"); cbn; [|done].
  do 2 f_equal.
  - by destruct (params !! "description").
  - by destruct (params !! "pollrate").
Qed.

(** C8: constructing a connection fails with MissingProperty exactly when
    [id] or [connection_type] is absent from [params]; when both are
    present (and the model table declares the connection model) it
    succeeds, [description] is the given one or the empty string, and
    [pollrate] is the given one or 0.5. *)
Theorem connection_requires_id_and_type models params :
  ((∃ k, __init__ models params = Raise (MissingProperty k))
   ↔ params !! "id" = None ∨ params !! "connection_type" = None)
  ∧ (is_Some (models !! "connection-params-local") →
     is_Some (params !! "id") →
     is_Some (params !! "connection_type") →
     ∃ c, __init__ models params = Return c
          ∧ _id c = get params "id"
          ∧ _description c = default (VStr "") (params !! "description")
          ∧ _pollrate c = default (VNum (Q2Qc (1 # 2))) (params !! "pollrate")).
Proof.
  split.
  - split.
    + intros [k Hk].
      destruct (params !! "id") as [v|] eqn:Hid; [|by left].
      destruct (params !! "connection_type") as [ct|] eqn:Hct; [|by right].
      rewrite (init_present _ _ _ _ Hid Hct) in Hk.
      by destruct (models !! "connection-params-local").
    + intros [Hid|Hct].
      * eexists. by apply init_missing_id.
      * destruct (params !! "id") as [v|] eqn:Hid.
        -- eexists. by apply init_missing_connection_type.
        -- eexists. by apply init_missing_id.
  - intros [o Ho] [v Hid] [ct Hct].
    rewrite (init_present _ _ _ _ Hid Hct), Ho.
    eexists. split; [reflexivity|]. cbn. unfold get. by rewrite Hid.
Qed.

Lemma connection_requires_id_and_type_witness :
  is_Some (declared_models !! "connection-params-local")
  ∧ is_Some (c1_params !! "id")
  ∧ is_Some (c1_params !! "connection_type")
  ∧ ∃ c, __init__ declared_models c1_params = Return c
         ∧ _id c = get c1_params "id"
         ∧ _description c = default (VStr "") (c1_params !! "description")
         ∧ _pollrate c = default (VNum (Q2Qc (1 # 2))) (c1_params !! "pollrate").
Proof.
  assert (is_Some (declared_models !! "connection-params-local")) as Hm
    by (vm_compute; eauto).
  assert (is_Some (c1_params !! "id")) as Hid by (vm_compute; eauto).
  assert (is_Some (c1_params !! "connection_type")) as Hct by (vm_compute; eauto).
  split_and!; [done | done | done |].
  exact (proj2 (connection_requires_id_and_type declared_models c1_params) Hm Hid Hct).
Defined.

(** *** Tags *)

Lemma tag_init_run params :
  Tag.__init__ params =
  match params !! "id", params !! "connection_id" with
  | Some v, Some cid =>
      Return (Tag.mk v cid (default (VStr "") (params !! "description"))
                (default (VStr "") (params !! "datatype"))
                (default (VStr "") (params !! "tag_type")))
  | Some _, None => Raise (MissingProperty (VStr "connection_id"))
  | None, _ => Raise (MissingProperty (VStr "id"))
  end.
Proof.
  unfold Tag.__init__, getitem. cbn.
  destruct (params !! "id"); cbn; [|done].
  by destruct (params !! "connection_id").
Qed.

Lemma logix_tag_init_run models params :
  LogixTag.__init__ models params =
  match Tag.__init__ params with
  | Raise e => Raise e
  | Return b =>
      match models !! "tag-params-logix" with
      | None => Raise (KeyError (VStr "tag-params-logix"))
      | Some o =>
          match params !! "address" with
          | None => Raise (MissingProperty (VStr "address"))
          | Some a => Return (LogixTag.mk (Tag.set_tag_type (VStr "logix") b) o a)
          end
      end
  end.
Proof.
  unfold LogixTag.__init__, getitem. cbn.
  destruct (Tag.__init__ params); cbn; [|done].
  destruct (models !! "tag-params-logix"); cbn; [|done].
  by destruct (params !! "address").
Qed.

(** C10: the Logix tag adds [address] to the required fields of the base
    tag.  Its construction fails as the base tag does when a base field is
    absent, fails with MissingProperty whenever [address] is absent, and,
    when [id], [connection_id] and [address] are all present (and the model
    table declares the Logix tag model), succeeds with [address] set to the
    given value. *)
Theorem logix_tag_requires_address models params :
  is_Some (models !! "tag-params-logix") →
  (∀ e, Tag.__init__ params = Raise e → LogixTag.__init__ models params = Raise e)
  ∧ (params !! "address" = None →
     ∃ k, LogixTag.__init__ models params = Raise (MissingProperty k))
  ∧ (∀ a, params !! "address" = Some a →
          is_Some (params !! "id") →
          is_Some (params !! "connection_id") →
          ∃ tag, LogixTag.__init__ models params = Return tag
                 ∧ LogixTag._address tag = a
                 ∧ Tag._id (LogixTag.base tag) = get params "id").
Proof.
  intros [o Ho]. rewrite logix_tag_init_run, Ho. split_and!.
  - by intros e ->.
  - intros Ha. rewrite Ha, tag_init_run.
    destruct (params !! "id"); [|by eexists].
    destruct (params !! "connection_id"); by eexists.
  - intros a Ha [v Hid] [cid Hcid].
    rewrite Ha, tag_init_run, Hid, Hcid.
    eexists. split_and!; [reflexivity | done |].
    cbn. unfold get. by rewrite Hid.
Qed.

(** ['id': 't1', 'connection_id': 'c1', 'address': 'N7:0'] *)
Lemma logix_tag_requires_address_witness :
  is_Some (declared_models !! "tag-params-logix")
  ∧ ∃ tag, LogixTag.__init__ declared_models
             {[ "id" := VStr "t1"; "connection_id" := VStr "c1";
                "address" := VStr "N7:0" ]} = Return tag
           ∧ LogixTag._address tag = VStr "N7:0"
           ∧ Tag._id (LogixTag.base tag)
             = get {[ "id" := VStr "t1"; "connection_id" := VStr "c1";
                      "address" := VStr "N7:0" ]} "id".
Proof.
  assert (is_Some (declared_models !! "tag-params-logix")) as Hm
    by (vm_compute; eauto).
  split; [exact Hm|].
  apply (proj2 (proj2 (logix_tag_requires_address declared_models _ Hm)) (VStr "N7:0"));
    vm_compute; eauto.
Defined.
End Construction.

(** ** Attaching tags *)

Section NewTag.
Import Connection.
Implicit Types (c : t) (tr : list event) (params : dict) (models : orm_models).

(** A tag class only builds a tag from parameters that hold an [id]. *)
Lemma construct_needs_id models cls params tag :
  construct models cls params = Return tag → is_Some (params !! "id").
Proof.
  destruct cls; cbn [construct].
  - rewrite tag_init_run. destruct (params !! "id"); [eauto | done].
  - rewrite logix_tag_init_run, tag_init_run.
    destruct (params !! "id"); [eauto | done].
Qed.

Lemma new_tag_run tag_types models params c tr :
  new_tag tag_types models params (World c tr) =
  match tag_types !! connection_type c with
  | None => (Raises (UnknownTagType (VStr (connection_type c))), World c tr)
  | Some cls =>
      match construct models cls (new_tag_params c params) with
      | Raise (KeyError k) => (Raises (UnknownTagType k), World c tr)
      | Raise e => (Raises e, World c tr)
      | Return tag =>
          match new_tag_params c params !! "id" with
          | None => (Raises (UnknownTagType (VStr "id")), World c tr)
          | Some key => (Returns tag, World (set_tags (<[key := tag]> (tags c)) c) tr)
          end
      end
  end.
Proof.
  unfold new_tag. rewrite bind_run. cbn [get_self self].
  unfold except_KeyError. rewrite bind_run. cbn [get_self self].
  rewrite bind_run. unfold getitem at 1.
  destruct (tag_types !! connection_type c) as [cls|]; cbn [lift]; [|done].
  rewrite bind_run.
  destruct (construct models cls (new_tag_params c params)) as [tag|e];
    cbn [lift]; [|by destruct e].
  rewrite bind_run. unfold getitem at 1.
  destruct (new_tag_params c params !! "id") as [key|] eqn:Hkey; cbn [lift]; [|done].
  rewrite bind_run. unfold modify at 1. cbn [self trace].
  rewrite bind_run. cbn [get_self self]. rewrite bind_run.
  unfold getitem. rewrite Hkey. cbn [lift].
  unfold getitem_v. cbn [tags set_tags _tags]. by rewrite lookup_insert_eq.
Qed.

(** The tag classes build or fail alike whatever [tag_type] the parameters
    give. *)
Lemma construct_ignores_tag_type models cls params v :
  match construct models cls params,
        construct models cls (<["tag_type" := v]> params) with
  | Raise e, Raise e' => e = e'
  | Return _, Return _ => True
  | _, _ => False
  end.
Proof.
  destruct cls; cbn [construct];
    rewrite ?logix_tag_init_run, !tag_init_run;
    rewrite ?(lookup_insert_ne _ "tag_type" "id") by done;
    rewrite ?(lookup_insert_ne _ "tag_type" "connection_id") by done;
    rewrite ?(lookup_insert_ne _ "tag_type" "address") by done.
  - destruct (params !! "id"); [|by cbn].
    destruct (params !! "connection_id"); by cbn.
  - destruct (params !! "id"); [|by cbn].
    destruct (params !! "connection_id"); [|by cbn].
    destruct (models !! "tag-params-logix"); [|by cbn].
    destruct (params !! "address"); by cbn.
Qed.

(** C6, as the spec has it, fails: the tag type of the parameters is not
    looked up.  On the connection [c1], of type "local",
    [new_tag({'id': 't1', 'tag_type': 'no-such-type'})] names a tag type
    for which [TAG_TYPES] has no class, and yet returns a tag and stores it
    in the tag map. *)
Lemma new_tag_unregistered_tag_type_succeeds :
  TAG_TYPES !! "no-such-type" = None
  ∧ ∃ tag,
      new_tag TAG_TYPES declared_models
        {[ "id" := VStr "t1"; "tag_type" := VStr "no-such-type" ]} (World c1 [])
      = (Returns (ATag tag), World (set_tags {[ VStr "t1" := ATag tag ]} c1) [])
      ∧ Tag._tag_type tag = VStr "no-such-type".
Proof.
  split; [vm_compute; reflexivity|].
  eexists. split; vm_compute; reflexivity.
Qed.

(** C6, amended: the table is looked up under the connection's type
    alone.  [new_tag] fails with UnknownTagType when the table has no class
    for the connection's type, passes on the MissingProperty of the tag
    class, leaves the tag map as it was whenever it fails, and, when the
    tag class succeeds, stores the tag under its id and returns it; whether
    it fails, and with which error, does not depend on the [tag_type] that
    the parameters give. *)
Theorem new_tag_contract tag_types models params c tr :
  (tag_types !! connection_type c = None →
   new_tag tag_types models params (World c tr)
   = (Raises (UnknownTagType (VStr (connection_type c))), World c tr))
  ∧ (∀ cls k,
       tag_types !! connection_type c = Some cls →
       construct models cls (new_tag_params c params) = Raise (MissingProperty k) →
       new_tag tag_types models params (World c tr)
       = (Raises (MissingProperty k), World c tr))
  ∧ (∀ e,
       (new_tag tag_types models params (World c tr)).1 = Raises e →
       (new_tag tag_types models params (World c tr)).2 = World c tr)
  ∧ (∀ cls tag,
       tag_types !! connection_type c = Some cls →
       construct models cls (new_tag_params c params) = Return tag →
       ∃ key, new_tag_params c params !! "id" = Some key
              ∧ new_tag tag_types models params (World c tr)
                = (Returns tag, World (set_tags (<[key := tag]> (tags c)) c) tr)
              ∧ tags (set_tags (<[key := tag]> (tags c)) c) !! key = Some tag)
  ∧ (new_tag tag_types models params (World c tr)).1 ≠ Blocked
  ∧ (∀ v e,
       (new_tag tag_types models params (World c tr)).1 = Raises e
       ↔ (new_tag tag_types models (<["tag_type" := v]> params) (World c tr)).1
         = Raises e).
Proof.
  rewrite new_tag_run. split_and!.
  - by intros ->.
  - by intros cls k -> ->.
  - intros e.
    destruct (tag_types !! connection_type c) as [cls|]; [|done].
    destruct (construct models cls (new_tag_params c params)) as [tag|[]]; try done.
    by destruct (new_tag_params c params !! "id").
  - intros cls tag -> Htag.
    destruct (construct_needs_id _ _ _ _ Htag) as [key Hkey].
    rewrite Htag, Hkey. exists key. split_and!; [done | done |].
    cbn. by rewrite lookup_insert_eq.
  - destruct (tag_types !! connection_type c) as [cls|]; [|done].
    destruct (construct models cls (new_tag_params c params)) as [tag|[]]; try done.
    by destruct (new_tag_params c params !! "id").
  - intros v e. rewrite new_tag_run.
    replace (new_tag_params c (<["tag_type" := v]> params))
      with (<["tag_type" := v]> (new_tag_params c params))
      by (unfold new_tag_params; by apply insert_insert_ne).
    destruct (tag_types !! connection_type c) as [cls|]; [|done].
    pose proof (construct_ignores_tag_type models cls (new_tag_params c params) v)
      as Hsame.
    rewrite lookup_insert_ne by done.
    destruct (construct models cls (new_tag_params c params)) as [tag|e1];
      destruct (construct models cls (<["tag_type" := v]> (new_tag_params c params)))
        as [tag'|e2]; try done.
    + by destruct (new_tag_params c params !! "id").
    + subst e2. by destruct e1.
Qed.

(** [new_tag({'id': 't1'})] on [c1]. *)
Lemma new_tag_contract_witness :
  TAG_TYPES !! connection_type c1 = Some TagClass
  ∧ ∃ tag key,
      construct declared_models TagClass (new_tag_params c1 {[ "id" := VStr "t1" ]})
      = Return tag
      ∧ new_tag TAG_TYPES declared_models {[ "id" := VStr "t1" ]} (World c1 [])
        = (Returns tag, World (set_tags (<[key := tag]> (tags c1)) c1) [])
      ∧ tags (set_tags (<[key := tag]> (tags c1)) c1) !! key = Some tag.
Proof.
  assert (TAG_TYPES !! connection_type c1 = Some TagClass) as Hcls
    by (vm_compute; reflexivity).
  split; [exact Hcls|].
  destruct (Tag.__init__ (new_tag_params c1 {[ "id" := VStr "t1" ]}))
    as [tag0|e] eqn:Htag0; [|vm_compute in Htag0; discriminate].
  assert (construct declared_models TagClass (new_tag_params c1 {[ "id" := VStr "t1" ]})
          = Return (ATag tag0)) as Htag
    by (cbn [construct]; rewrite Htag0; reflexivity).
  destruct (proj1 (proj2 (proj2 (proj2
              (new_tag_contract TAG_TYPES declared_models {[ "id" := VStr "t1" ]} c1 []))))
              TagClass (ATag tag0) Hcls Htag) as (key & _ & Hrun & Hstored).
  exists (ATag tag0), key. split_and!; [exact Htag | exact Hrun | exact Hstored].
Defined.

Lemma logix_init_type models params lc :
  LogixConnection.__init__ models params = Return lc →
  connection_type (LogixConnection.base lc) = "logix"
  ∧ tags (LogixConnection.base lc) = ∅.
Proof.
  unfold LogixConnection.__init__. cbn.
  destruct (__init__ models params) as [c|e] eqn:Hc; cbn; [|done].
  apply init_starts in Hc as (_ & _ & _ & Htags & _).
  destruct (getitem models "connection-params-logix"); cbn; [|done].
  intros [= <-]. cbn. split; [done | exact Htags].
Qed.

(** C7: on a Logix connection every [new_tag] call fails, whatever the
    parameters: the table is looked up under "logix", for which
    [TAG_TYPES] has no class.  The connection is left as it was, so
    whatever calls are made, its tag map stays empty. *)
Theorem logix_new_tag_always_fails models params lc :
  LogixConnection.__init__ models params = Return lc →
  tags (LogixConnection.base lc) = ∅
  ∧ ∀ calls tr,
      new_tag_attempts TAG_TYPES models calls (World (LogixConnection.base lc) tr)
      = ((λ _, Raises (UnknownTagType (VStr "logix"))) <$> calls,
         World (LogixConnection.base lc) tr).
Proof.
  intros [Htype Htags]%logix_init_type. split; [exact Htags|].
  intros calls tr. induction calls as [|p calls IH]; [done|].
  cbn [new_tag_attempts]. rewrite new_tag_run, Htype.
  replace (TAG_TYPES !! "logix") with (@None tag_class) by (vm_compute; reflexivity).
  by rewrite IH.
Qed.

(** The poll rate of a Logix connection defaults to 1.0. *)
Lemma logix_init_pollrate models params lc :
  LogixConnection.__init__ models params = Return lc →
  params !! "pollrate" = None →
  _pollrate (LogixConnection.base lc) = VNum 1.
Proof.
  unfold LogixConnection.__init__. cbn.
  destruct (__init__ models params) as [c|e]; cbn; [|done].
  destruct (getitem models "connection-params-logix"); cbn; [|done].
  intros [= <-] Hrate. cbn. unfold get. by rewrite Hrate.
Qed.

(** [{'id': 'plc', 'connection_type': 'logix'}], then two attempts. *)
Lemma logix_new_tag_always_fails_witness :
  ∃ lc,
    LogixConnection.__init__ declared_models
      {[ "id" := VStr "plc"; "connection_type" := VStr "logix" ]} = Return lc
    ∧ new_tag_attempts TAG_TYPES declared_models
        [ {[ "id" := VStr "t1"; "address" := VStr "N7:0" ]}; {[ "id" := VStr "t2" ]} ]
        (World (LogixConnection.base lc) [])
      = ([Raises (UnknownTagType (VStr "logix")); Raises (UnknownTagType (VStr "logix"))],
         World (LogixConnection.base lc) []).
Proof.
  destruct (LogixConnection.__init__ declared_models
              {[ "id" := VStr "plc"; "connection_type" := VStr "logix" ]})
    as [lc|e] eqn:Hlc; [|vm_compute in Hlc; discriminate].
  exists lc. split; [reflexivity|].
  exact (proj2 (logix_new_tag_always_fails declared_models _ lc Hlc) _ []).
Defined.
End NewTag.

(** * Further properties *)

(** ** More on the list loops *)

Section MoreListFacts.
Context {A : Type} `{EqDecision A}.
Implicit Types (l sub : list A) (x : A).

Lemma length_filter_none (P : A → Prop) `{∀ x, Decision (P x)} l :
  (∀ x, x ∈ l → ¬ P x) → length (filter P l) = 0%nat.
Proof.
  induction l as [|x l IH]; intros HP; [done|].
  rewrite filter_cons. destruct (decide (P x)) as [Hx|_].
  - destruct (HP x); [by left | done].
  - apply IH. intros y Hy. apply HP. by right.
Qed.

(** The first loop of [update_polled_tags] only appends. *)
Lemma append_missing_prefix sub l : l `prefix_of` append_missing sub l.
Proof.
  unfold append_missing. revert l.
  induction sub as [|x sub IH]; intros l; [done|].
  cbn [foldl]. destruct (py_in x l); [apply IH|].
  etrans; [|apply IH]. by apply prefix_app_r.
Qed.

(** What it appends is in [sub], so it adds no stale element. *)
Lemma append_missing_stale sub l :
  filter (λ x, x ∉ sub) (append_missing sub l) = filter (λ x, x ∉ sub) l.
Proof.
  unfold append_missing.
  assert (∀ sub' l, (∀ x, x ∈ sub' → x ∈ sub) →
            filter (λ x, x ∉ sub)
              (foldl (λ polled tag, if py_in tag polled then polled else polled ++ [tag])
                     l sub')
            = filter (λ x, x ∉ sub) l) as Hgen.
  { clear l. intros sub'. induction sub' as [|x sub' IH]; intros l Hsub; [done|].
    cbn [foldl]. rewrite IH by (intros y Hy; apply Hsub; by right).
    destruct (py_in x l); [done|].
    rewrite filter_app, filter_cons, filter_nil.
    destruct (decide (x ∉ sub)) as [Hx|_]; [|by rewrite app_nil_r].
    destruct Hx. apply Hsub. by left. }
  by apply Hgen.
Qed.
End MoreListFacts.

(** ** More on the control calls *)

Section ControlCalls.
Import Connection.
Implicit Types (c : t) (tr : list event) (sub : list pyval).

(** X1: [set_polling] starts a polling thread exactly when it switches
    polling on from off, and calling it a second time with the same
    argument changes nothing more: no second thread is started. *)
Theorem set_polling_twice (b : bool) c tr :
  (set_polling b ≫= λ _, set_polling b) (World c tr) = set_polling b (World c tr)
  ∧ polling (self (set_polling b (World c tr)).2) = b
  ∧ trace (set_polling b (World c tr)).2
    = if b && negb (polling c) then tr ++ [Event ThreadStart (thread_lock c)] else tr.
Proof.
  rewrite bind_run, !set_polling_run.
  cbn [snd self trace polling set_polling_flag thread_lock].
  destruct b, (polling c); cbn; rewrite ?app_nil_r; done.
Qed.

(** X2: when no polled id is stale (every polled id is also in [sub_tags]),
    [update_polled_tags] keeps the polled list as the front of the new
    one, appends the ids that are new, and so leaves exactly the ids of
    [sub_tags]; a list without duplicates stays so.  This covers the first
    call on a fresh connection. *)
Theorem update_polled_tags_nothing_stale sub c tr :
  thread_lock c = false →
  (∀ x, x ∈ polled_tags c → x ∈ sub) →
  ∃ w, update_polled_tags sub (World c tr) = (Returns tt, w)
       ∧ polled_tags c `prefix_of` polled_tags (self w)
       ∧ (∀ x, x ∈ polled_tags (self w) ↔ x ∈ sub)
       ∧ (NoDup (polled_tags c) → NoDup (polled_tags (self w))).
Proof.
  intros Hfree Hsub.
  pose proof (update_polled_tags_run sub c tr Hfree) as Hrun. cbn zeta in Hrun.
  rewrite hitlist_length, append_missing_stale in Hrun.
  rewrite length_filter_none in Hrun by (intros x Hx Hn; by apply Hn, Hsub).
  rewrite drop_0 in Hrun.
  eexists. split; [exact Hrun|]. cbn [self snd polled_tags settled
    set_thread_lock set_polling_flag set_polled_tags].
  split_and!.
  - apply append_missing_prefix.
  - intros x. rewrite append_missing_elem. naive_solver.
  - apply append_missing_NoDup.
Qed.

Lemma update_polled_tags_nothing_stale_witness :
  thread_lock c1 = false
  ∧ ∃ w, update_polled_tags [VStr "t1"; VStr "t2"; VStr "t1"] (World c1 [])
         = (Returns tt, w)
         ∧ polled_tags c1 `prefix_of` polled_tags (self w)
         ∧ (∀ x, x ∈ polled_tags (self w) ↔ x ∈ [VStr "t1"; VStr "t2"; VStr "t1"])
         ∧ (NoDup (polled_tags c1) → NoDup (polled_tags (self w))).
Proof.
  split; [reflexivity|].
  apply (update_polled_tags_nothing_stale [VStr "t1"; VStr "t2"; VStr "t1"] c1 []).
  - reflexivity.
  - intros x Hx. cbn in Hx. by apply not_elem_of_nil in Hx.
Defined.

(** X3: in general [update_polled_tags] appends the new ids and then drops
    as many elements from the front of the list as the old list held stale
    ids, whichever elements are at the front. *)
Theorem update_polled_tags_drops_front sub c tr :
  thread_lock c = false →
  ∃ w, update_polled_tags sub (World c tr) = (Returns tt, w)
       ∧ polled_tags (self w)
         = drop (length (filter (λ x, x ∉ sub) (polled_tags c)))
                (append_missing sub (polled_tags c))
       ∧ (∀ x, x ∈ polled_tags (self w) → x ∈ polled_tags c ∨ x ∈ sub).
Proof.
  intros Hfree.
  pose proof (update_polled_tags_run sub c tr Hfree) as Hrun. cbn zeta in Hrun.
  rewrite hitlist_length, append_missing_stale in Hrun.
  eexists. split; [exact Hrun|]. cbn [self snd polled_tags settled
    set_thread_lock set_polling_flag set_polled_tags].
  split; [done|]. intros x Hx. apply (append_missing_elem sub).
  eapply sublist_subseteq; [apply sublist_drop | exact Hx].
Qed.

Lemma update_polled_tags_drops_front_witness :
  thread_lock (set_polled_tags [VStr "t1"; VStr "t2"; VStr "t3"] c1) = false
  ∧ ∃ w, update_polled_tags [VStr "t1"; VStr "t4"]
           (World (set_polled_tags [VStr "t1"; VStr "t2"; VStr "t3"] c1) [])
         = (Returns tt, w)
         ∧ polled_tags (self w)
           = drop (length (filter (λ x, x ∉ [VStr "t1"; VStr "t4"])
                                  (polled_tags (set_polled_tags [VStr "t1"; VStr "t2"; VStr "t3"] c1))))
                  (append_missing [VStr "t1"; VStr "t4"]
                     (polled_tags (set_polled_tags [VStr "t1"; VStr "t2"; VStr "t3"] c1)))
         ∧ (∀ x, x ∈ polled_tags (self w) →
                 x ∈ polled_tags (set_polled_tags [VStr "t1"; VStr "t2"; VStr "t3"] c1)
                 ∨ x ∈ [VStr "t1"; VStr "t4"]).
Proof.
  split; [reflexivity|].
  apply (update_polled_tags_drops_front [VStr "t1"; VStr "t4"]
           (set_polled_tags [VStr "t1"; VStr "t2"; VStr "t3"] c1) []).
  reflexivity.
Defined.

(** X4: on a polled list without duplicates, [remove_polled_tags], called
    with a list of the caller's own (not the polled list object itself),
    leaves the list empty and the polling flag off, whatever ids that list
    holds, and starts no thread. *)
Theorem remove_polled_tags_empties sub c tr :
  thread_lock c = false →
  NoDup (polled_tags c) →
  ∃ w, remove_polled_tags sub (World c tr) = (Returns tt, w)
       ∧ polled_tags (self w) = []
       ∧ polling (self w) = false
       ∧ trace w = tr.
Proof.
  intros Hfree Hnd. eexists.
  split; [by apply remove_polled_tags_leaves_nothing|]. done.
Qed.

Lemma remove_polled_tags_empties_witness :
  thread_lock (set_polled_tags [VStr "t1"; VStr "t2"; VStr "t3"] c1) = false
  ∧ NoDup (polled_tags (set_polled_tags [VStr "t1"; VStr "t2"; VStr "t3"] c1))
  ∧ ∃ w, remove_polled_tags [VStr "t2"]
           (World (set_polled_tags [VStr "t1"; VStr "t2"; VStr "t3"] c1) [])
         = (Returns tt, w)
         ∧ polled_tags (self w) = []
         ∧ polling (self w) = false
         ∧ trace w = [].
Proof.
  assert (NoDup (polled_tags (set_polled_tags [VStr "t1"; VStr "t2"; VStr "t3"] c1)))
    as Hnd by (apply (bool_decide_unpack _); vm_compute; exact I).
  split; [reflexivity|]. split; [exact Hnd|].
  apply (remove_polled_tags_empties [VStr "t2"]
           (set_polled_tags [VStr "t1"; VStr "t2"; VStr "t3"] c1) []);
    [reflexivity | exact Hnd].
Defined.

(** X5: a control call that gets the lock returns with the lock released,
    changes nothing of the connection but the polled list and the polling
    flag, brings no id into the list that was not there or in its
    argument, and starts at most one thread. *)
Theorem control_call_frame op c tr :
  thread_lock c = false →
  ∃ w, control_step op (World c tr) = (Returns tt, w)
       ∧ thread_lock (self w) = false
       ∧ set_polling_flag (polling c) (set_polled_tags (polled_tags c) (self w)) = c
       ∧ (∀ x, x ∈ polled_tags (self w) →
               x ∈ polled_tags c
               ∨ ∃ sub, op = UpdatePolledTags sub ∧ x ∈ sub)
       ∧ (trace w = tr ∨ trace w = tr ++ [Event ThreadStart true]).
Proof.
  intros Hfree.
  assert (∀ l, set_polling_flag (polling c) (set_polled_tags (polled_tags c) (settled l c)) = c)
    as Hframe by (intros l; destruct c; cbn in *; by subst).
  assert (∀ l, tr ++ thread_started l c = tr
               ∨ tr ++ thread_started l c = tr ++ [Event ThreadStart true]) as Htrace.
  { intros l. unfold thread_started.
    destruct (_ && _); [by right | left; apply app_nil_r]. }
  destruct op as [sub|sub]; cbn [control_step].
  - rewrite update_polled_tags_run by done. eexists.
    split_and!; [reflexivity | done | apply Hframe | | apply Htrace].
    cbn. intros x Hx.
    apply (sublist_subseteq _ _ (sublist_drop _ _)), append_missing_elem in Hx.
    destruct Hx; [by left | right; eauto].
  - destruct (remove_polled_tags_run sub c tr Hfree) as (l1 & _ & Hsub & Hrun).
    cbn zeta in Hrun. rewrite Hrun. eexists.
    split_and!; [reflexivity | done | apply Hframe | | apply Htrace].
    cbn. intros x Hx. left.
    eapply sublist_subseteq; [exact Hsub|].
    eapply sublist_subseteq; [apply sublist_drop | exact Hx].
Qed.

Lemma control_call_frame_witness :
  thread_lock c1_polling = false
  ∧ ∃ w, control_step (UpdatePolledTags [VStr "t2"]) (World c1_polling [])
         = (Returns tt, w)
         ∧ thread_lock (self w) = false
         ∧ set_polling_flag (polling c1_polling)
             (set_polled_tags (polled_tags c1_polling) (self w)) = c1_polling
         ∧ (∀ x, x ∈ polled_tags (self w) →
                 x ∈ polled_tags c1_polling
                 ∨ ∃ sub, UpdatePolledTags [VStr "t2"] = UpdatePolledTags sub ∧ x ∈ sub)
         ∧ (trace w = [] ∨ trace w = [] ++ [Event ThreadStart true]).
Proof.
  split; [reflexivity|].
  apply (control_call_frame (UpdatePolledTags [VStr "t2"]) c1_polling []).
  reflexivity.
Defined.
End ControlCalls.

(** ** More on the polling loop *)

Section MorePolling.
Import Connection.
Implicit Types (c : t) (tr : list event) (ts now : Qc).



Lemma add_sample_lookup ts (m : gmap pyval (list (Qc * Qc))) x tag :
  add_sample ts m x !! tag =
  if decide (x = tag) then Some (default [] (m !! tag) ++ [(sample_value, ts)])
  else m !! tag.
Proof.
  unfold add_sample. destruct (decide (x = tag)) as [->|Hne].
  - rewrite lookup_alter_eq. case_bool_decide as Hm.
    + destruct Hm as [old ->]. done.
    + rewrite lookup_insert_eq.
      destruct (m !! tag) as [old|] eqn:Hold; [|done].
      destruct Hm. eauto.
  - rewrite lookup_alter_ne by done.
    case_bool_decide; [done|]. by rewrite lookup_insert_ne.
Qed.

Lemma add_samples_lookup ts l (m : gmap pyval (list (Qc * Qc))) tag :
  foldl (add_sample ts) m l !! tag =
  let n := length (filter (λ x, x = tag) l) in
  match m !! tag with
  | Some old => Some (old ++ replicate n (sample_value, ts))
  | None => if bool_decide (tag ∈ l) then Some (replicate n (sample_value, ts)) else None
  end.
Proof.
  revert m. induction l as [|x l IH]; intros m.
  - cbn. destruct (m !! tag); [by rewrite app_nil_r | done].
  - cbn [foldl]. rewrite IH, add_sample_lookup, filter_cons. cbn zeta.
    destruct (decide (x = tag)) as [->|Hne].
    + cbn [length]. rewrite replicate_S.
      destruct (m !! tag) as [old|]; cbn.
      * by rewrite <- app_assoc.
      * rewrite bool_decide_eq_true_2; [done | by left].
    + destruct (m !! tag) as [old|]; [done|].
      destruct (decide (tag ∈ l)) as [Hin|Hin].
      * rewrite !bool_decide_eq_true_2; [done | by right | done].
      * rewrite !bool_decide_eq_false_2; [done | | done].
        intros [?|?]%elem_of_cons; [congruence | done].
Qed.

(** X6: the batch a turn builds at time [ts] holds an entry for a tag
    exactly when the tag is polled, and the entry is one sample
    [(3.14159, ts)] per occurrence of the tag in the polled list: exactly
    one when the list has no duplicates. *)
Theorem batch_samples ts (polled : list pyval) tag :
  foldl (add_sample ts) ∅ polled !! tag
  = (if bool_decide (tag ∈ polled)
     then Some (replicate (length (filter (λ x, x = tag) polled)) (sample_value, ts))
     else None)
  ∧ (NoDup polled → tag ∈ polled →
     foldl (add_sample ts) ∅ polled !! tag = Some [(sample_value, ts)]).
Proof.
  assert (foldl (add_sample ts) ∅ polled !! tag
          = if bool_decide (tag ∈ polled)
            then Some (replicate (length (filter (λ x, x = tag) polled)) (sample_value, ts))
            else None) as Hgen
    by (rewrite add_samples_lookup; cbn zeta; by rewrite lookup_empty).
  split; [exact Hgen|].
  intros Hnd Hin. rewrite Hgen, bool_decide_eq_true_2 by done.
  replace (length (filter (λ x, x = tag) polled)) with 1%nat; [done|].
  clear Hgen. induction polled as [|x l IH]; [by apply not_elem_of_nil in Hin|].
  apply NoDup_cons in Hnd as [Hx Hnd]. rewrite filter_cons.
  destruct (decide (x = tag)) as [->|Hne].
  - cbn. rewrite length_filter_none; [done|]. intros y Hy ->. done.
  - apply IH; [done|]. apply elem_of_cons in Hin as [?|?]; [congruence | done].
Qed.

Lemma batch_samples_witness :
  NoDup [VStr "t1"; VStr "t2"]
  ∧ VStr "t2" ∈ [VStr "t1"; VStr "t2"]
  ∧ foldl (add_sample 0) ∅ [VStr "t1"; VStr "t2"] !! VStr "t2"
    = Some [(sample_value, 0%Qc)].
Proof.
  assert (NoDup [VStr "t1"; VStr "t2"]) as Hnd
    by (apply (bool_decide_unpack _); vm_compute; exact I).
  assert (VStr "t2" ∈ [VStr "t1"; VStr "t2"]) as Hin
    by (apply (bool_decide_unpack _); vm_compute; exact I).
  split_and!; [exact Hnd | exact Hin |].
  exact (proj2 (batch_samples 0%Qc [VStr "t1"; VStr "t2"] (VStr "t2")) Hnd Hin).
Defined.






End MorePolling.

(** ** How the polling loop ends *)

Section PollingEnds.
Import Connection.
Implicit Types (c : t) (tr : list event) (ts now : Qc).




(** X10: the constructor does not check [pollrate].  When [params] gives
    [None] or a string for it, the connection is built with that value,
    and every turn of its polling loop ends with [TypeError] when it
    computes the deadline [ts + pollrate]. *)
Theorem pollrate_is_not_validated models params v :
  is_Some (models !! "connection-params-local") →
  is_Some (params !! "id") →
  is_Some (params !! "connection_type") →
  params !! "pollrate" = Some v →
  (v = VNone ∨ ∃ s, v = VStr s) →
  ∃ c, __init__ models params = Return c
       ∧ _pollrate c = v
       ∧ ∀ ts now tr,
           (poll_cycle ts now (World c tr)).1
           = Raises (TypeError "unsupported operand type(s) for +").
Proof.
  intros [o Ho] [vid Hid] [ct Hct] Hrate Hv.
  rewrite (init_present _ _ _ _ Hid Hct), Ho, Hrate.
  eexists. split_and!; [reflexivity | reflexivity |].
  intros ts now tr. rewrite poll_cycle_run by reflexivity.
  cbn [_pollrate default]. by destruct Hv as [->|[s ->]].
Qed.

Lemma pollrate_is_not_validated_witness :
  is_Some (declared_models !! "connection-params-local")
  ∧ ∃ c, __init__ declared_models (<["pollrate" := VStr "fast"]> c1_params) = Return c
         ∧ _pollrate c = VStr "fast"
         ∧ ∀ ts now tr,
             (poll_cycle ts now (World c tr)).1
             = Raises (TypeError "unsupported operand type(s) for +").
Proof.
  assert (is_Some (declared_models !! "connection-params-local")) as Hm
    by (vm_compute; eauto).
  split; [exact Hm|].
  apply (pollrate_is_not_validated declared_models
           (<["pollrate" := VStr "fast"]> c1_params) (VStr "fast") Hm).
  - vm_compute. eauto.
  - vm_compute. eauto.
  - vm_compute. reflexivity.
  - right. by exists "fast".
Defined.

(** X11: whatever the number of turns, their timing and the way the loop
    ends, no call of the update sink is made with the lock released. *)
Theorem poll_submits_only_under_lock clock c :
  sink_calls_locked (trace (poll clock (initially c)).2) = true.
Proof. by apply poll_sink_calls_locked. Qed.
End PollingEnds.

(** ** More on construction and on attaching tags *)

Section MoreNewTag.
Import Connection.
Implicit Types (c : t) (tr : list event) (params : dict) (models : orm_models).

(** X12: a [new_tag] call that returns has stored the tag under the [id]
    of [params], replacing whatever tag was stored under that id, and has
    left every other entry of the tag map, the rest of the connection and
    the trace as they were. *)
Theorem new_tag_stores_and_frames tag_types models params c tr tag w :
  new_tag tag_types models params (World c tr) = (Returns tag, w) →
  ∃ key, params !! "id" = Some key
         ∧ tags (self w) !! key = Some tag
         ∧ (∀ k, k ≠ key → tags (self w) !! k = tags c !! k)
         ∧ set_tags (tags c) (self w) = c
         ∧ trace w = tr.
Proof.
  rewrite new_tag_run.
  destruct (tag_types !! connection_type c) as [cls|]; [|done].
  destruct (construct models cls (new_tag_params c params)) as [tag'|[]]; try done.
  unfold new_tag_params at 1. rewrite lookup_insert_ne by done.
  destruct (params !! "id") as [key|]; [|done].
  intros [= -> <-]. exists key. cbn [self trace tags set_tags _tags].
  split_and!; [done | apply lookup_insert_eq | | | done].
  - intros k Hk. by rewrite lookup_insert_ne.
  - by destruct c.
Qed.

Lemma new_tag_stores_and_frames_witness :
  ∃ tag w key,
    new_tag TAG_TYPES declared_models {[ "id" := VStr "t1" ]}
      (World (set_tags {[ VStr "t1" := ATag (Tag.mk (VStr "t1") (VStr "c0") VNone VNone VNone) ]} c1) [])
    = (Returns tag, w)
    ∧ ({[ "id" := VStr "t1" ]} : dict) !! "id" = Some key
    ∧ tags (self w) !! key = Some tag.
Proof.
  destruct (new_tag TAG_TYPES declared_models {[ "id" := VStr "t1" ]}
      (World (set_tags {[ VStr "t1" := ATag (Tag.mk (VStr "t1") (VStr "c0") VNone VNone VNone) ]} c1) []))
    as [[tag|e|] w] eqn:Hrun;
    [|vm_compute in Hrun; discriminate|vm_compute in Hrun; discriminate].
  destruct (new_tag_stores_and_frames _ _ _ _ _ _ _ Hrun) as (key & Hkey & Htag & _).
  by exists tag, w, key.
Defined.

(** X13: on a connection of type "local", with the table [TAG_TYPES],
    [new_tag] needs nothing but an [id] in [params]: it builds a base tag
    whose [connection_id] is the connection's own id, whatever [params]
    gave for it, and stores it; without an [id] it fails with
    MissingProperty for [id] and stores nothing. *)
Theorem new_tag_local models params c tr :
  connection_type c = "local" →
  match params !! "id" with
  | Some key =>
      ∃ tag, new_tag TAG_TYPES models params (World c tr)
             = (Returns (ATag tag), World (set_tags (<[key := ATag tag]> (tags c)) c) tr)
             ∧ Tag._id tag = key
             ∧ Tag._connection_id tag = id c
  | None =>
      new_tag TAG_TYPES models params (World c tr)
      = (Raises (MissingProperty (VStr "id")), World c tr)
  end.
Proof.
  intros Htype. rewrite new_tag_run, Htype.
  replace (TAG_TYPES !! "local") with (Some TagClass) by (vm_compute; reflexivity).
  cbn [construct]. rewrite tag_init_run.
  unfold new_tag_params. rewrite lookup_insert_ne by done. rewrite lookup_insert_eq.
  destruct (params !! "id") as [key|]; [|done].
  cbn. eexists. split_and!; reflexivity.
Qed.

(** [new_tag({'id': 't1', 'connection_id': 'elsewhere'})] on [c1]. *)
Lemma new_tag_local_witness :
  connection_type c1 = "local"
  ∧ ∃ tag, new_tag TAG_TYPES declared_models
             {[ "id" := VStr "t1"; "connection_id" := VStr "elsewhere" ]} (World c1 [])
           = (Returns (ATag tag), World (set_tags (<[VStr "t1" := ATag tag]> (tags c1)) c1) [])
           ∧ Tag._id tag = VStr "t1"
           ∧ Tag._connection_id tag = id c1.
Proof.
  split; [reflexivity|].
  pose proof (new_tag_local declared_models
                {[ "id" := VStr "t1"; "connection_id" := VStr "elsewhere" ]} c1 []
                eq_refl) as Hrun.
  replace ({[ "id" := VStr "t1"; "connection_id" := VStr "elsewhere" ]} !! "id")
    with (Some (VStr "t1")) in Hrun by (vm_compute; reflexivity).
  exact Hrun.
Defined.

(** X14: [new_tag] turns every [KeyError] raised while the tag is built
    into its unknown-type error.  With a table that does register the
    Logix tag class for the connection's type, a model table that lacks
    the Logix tag model makes [new_tag] fail with "unknown type:
    'tag-params-logix'", and nothing is stored. *)
Theorem new_tag_reports_any_KeyError tag_types models params c tr :
  tag_types !! connection_type c = Some LogixTagClass →
  models !! "tag-params-logix" = None →
  is_Some (params !! "id") →
  new_tag tag_types models params (World c tr)
  = (Raises (UnknownTagType (VStr "tag-params-logix")), World c tr).
Proof.
  intros Hcls Hmodel [key Hkey]. rewrite new_tag_run, Hcls.
  cbn [construct]. rewrite logix_tag_init_run, tag_init_run, Hmodel.
  unfold new_tag_params. rewrite lookup_insert_ne by done. rewrite lookup_insert_eq, Hkey.
  reflexivity.
Qed.

Lemma new_tag_reports_any_KeyError_witness :
  ({[ "logix" := LogixTagClass ]} : gmap string tag_class)
    !! connection_type (set_connection_type "logix" c1) = Some LogixTagClass
  ∧ (∅ : orm_models) !! "tag-params-logix" = None
  ∧ is_Some (({[ "id" := VStr "t1"; "address" := VStr "N7:0" ]} : dict) !! "id")
  ∧ new_tag {[ "logix" := LogixTagClass ]} ∅
      {[ "id" := VStr "t1"; "address" := VStr "N7:0" ]}
      (World (set_connection_type "logix" c1) [])
    = (Raises (UnknownTagType (VStr "tag-params-logix")),
       World (set_connection_type "logix" c1) []).
Proof.
  assert (({[ "logix" := LogixTagClass ]} : gmap string tag_class)
            !! connection_type (set_connection_type "logix" c1) = Some LogixTagClass)
    as Hcls by (vm_compute; reflexivity).
  assert (is_Some (({[ "id" := VStr "t1"; "address" := VStr "N7:0" ]} : dict) !! "id"))
    as Hid by (vm_compute; eauto).
  split_and!; [exact Hcls | reflexivity | exact Hid |].
  exact (new_tag_reports_any_KeyError _ ∅ _ (set_connection_type "logix" c1) []
           Hcls eq_refl Hid).
Defined.
End MoreNewTag.

(** ** Logix connections *)

Section LogixConnections.
Import Connection.
Implicit Types (params : dict) (models : orm_models).

Lemma truthy_py_or a b : truthy b = true → truthy (py_or a b) = true.
Proof. intros Hb. unfold py_or. by destruct (truthy a) eqn:Ha. Qed.

(** X15: a Logix connection is built exactly when the base connection is
    and the model table declares the Logix model: no further field is
    required, [host] included.  Its type is "logix", and its poll rate,
    port and host are never falsy: a value that is absent, [None], zero or
    empty is replaced by 1.0, 44818 and '127.0.0.1'. *)
Theorem logix_connection_defaults models params :
  (∀ e, __init__ models params = Raise e →
        LogixConnection.__init__ models params = Raise e)
  ∧ (∀ c, __init__ models params = Return c →
          is_Some (models !! "connection-params-logix") →
          ∃ lc, LogixConnection.__init__ models params = Return lc
                ∧ connection_type (LogixConnection.base lc) = "logix"
                ∧ _id (LogixConnection.base lc) = _id c
                ∧ _pollrate (LogixConnection.base lc)
                  = (if truthy (get params "pollrate")
                     then get params "pollrate" else VNum 1)
                ∧ truthy (_pollrate (LogixConnection.base lc)) = true
                ∧ truthy (LogixConnection._port lc) = true
                ∧ truthy (LogixConnection._host lc) = true).
Proof.
  unfold LogixConnection.__init__. cbn. split.
  - by intros e ->.
  - intros c -> [o Ho]. unfold getitem. rewrite Ho. cbn.
    eexists. split; [reflexivity|]. cbn.
    split_and!; [done | done | done | | | ]; by apply truthy_py_or.
Qed.

Lemma logix_connection_defaults_witness :
  __init__ declared_models (<["pollrate" := VNum 0]> c1_params)
  = Return (set_pollrate (VNum 0) c1)
  ∧ is_Some (declared_models !! "connection-params-logix")
  ∧ ∃ lc, LogixConnection.__init__ declared_models (<["pollrate" := VNum 0]> c1_params)
          = Return lc
          ∧ _pollrate (LogixConnection.base lc) = VNum 1.
Proof.
  assert (__init__ declared_models (<["pollrate" := VNum 0]> c1_params)
          = Return (set_pollrate (VNum 0) c1)) as Hc by (vm_compute; reflexivity).
  assert (is_Some (declared_models !! "connection-params-logix")) as Hm
    by (vm_compute; eauto).
  split_and!; [exact Hc | exact Hm |].
  destruct (proj2 (logix_connection_defaults declared_models
                     (<["pollrate" := VNum 0]> c1_params)) _ Hc Hm)
    as (lc & Hlc & _ & _ & Hrate & _).
  exists lc. split; [exact Hlc|]. rewrite Hrate. vm_compute. reflexivity.
Defined.
End LogixConnections.

(** ** Loading from the database *)

Section Loading.
Import Connection.
Implicit Types (params : dict) (models : orm_models) (session : Db.session).

Lemma first_filter_Some column v (rows : list Db.row) r :
  Db.first (Db.filter_eq column v rows) = Some r →
  r ∈ rows ∧ Db.attr r column = v.
Proof.
  unfold Db.first, Db.filter_eq. intros Hhead.
  assert (r ∈ filter (λ r, Db.attr r column = v) rows) as Hin.
  { destruct (filter _ rows) as [|r' rest]; [done|].
    injection Hhead as ->. by left. }
  apply list_elem_of_filter in Hin as [? ?]. done.
Qed.

Lemma first_filter_None column v (rows : list Db.row) :
  Db.first (Db.filter_eq column v rows) = None ↔
  ∀ r, r ∈ rows → Db.attr r column ≠ v.
Proof.
  unfold Db.first, Db.filter_eq. split.
  - intros Hhead r Hr Hv.
    assert (r ∈ filter (λ r, Db.attr r column = v) rows) as Hin
      by by apply list_elem_of_filter.
    destruct (filter _ rows); [by apply not_elem_of_nil in Hin | done].
  - intros Hnone. destruct (filter _ rows) as [|r rest] eqn:Hf; [done|].
    assert (r ∈ filter (λ r, Db.attr r column = v) rows) as Hin
      by (rewrite Hf; by left).
    apply list_elem_of_filter in Hin as [Hv Hr]. by destruct (Hnone r Hr).
Qed.

(** X16: [Connection.get_params_from_db] returns [None] exactly when the
    table holds no row with the id.  Otherwise the parameters it returns
    always build a connection: its id is the one asked for, its
    description the stored one, its poll rate the default 0.5, and its
    type "local" whatever type the row stores.  The call itself fails
    only when the model table lacks the connection model. *)
Theorem get_params_then_init models session id :
  match Connection_get_params_from_db models session id with
  | Return (Some params) =>
      ∃ o conn c,
        models !! "connection-params-local" = Some o
        ∧ conn ∈ session o
        ∧ Db.attr conn "id" = id
        ∧ __init__ models params = Return c
        ∧ _id c = id
        ∧ _description c = Db.attr conn "description"
        ∧ _pollrate c = VNum default_pollrate
        ∧ connection_type c = "local"
  | Return None =>
      ∃ o, models !! "connection-params-local" = Some o
           ∧ ∀ r, r ∈ session o → Db.attr r "id" ≠ id
  | Raise e =>
      models !! "connection-params-local" = None
      ∧ e = KeyError (VStr "connection-params-local")
  end.
Proof.
  unfold Connection_get_params_from_db, getitem. cbn.
  destruct (models !! "connection-params-local") as [o|] eqn:Ho; cbn; [|done].
  destruct (Db.first (Db.filter_eq "id" id (session o))) as [conn|] eqn:Hconn.
  - apply first_filter_Some in Hconn as [Hin Hid].
    eexists o, conn, _. split_and!; [done | done | done | | | | |].
    + erewrite init_present; [rewrite Ho; reflexivity | |]; by simplify_map_eq.
    + cbn. exact Hid.
    + cbn. by simplify_map_eq.
    + cbn. by simplify_map_eq.
    + done.
  - exists o. split; [done|]. by apply first_filter_None.
Qed.
End Loading.

Section LoadingLogix.
Import Connection.
Implicit Types (params : dict) (models : orm_models) (session : Db.session).

Lemma get_params_run models session id o :
  models !! "connection-params-local" = Some o →
  Connection_get_params_from_db models session id =
  Return (match Db.first (Db.filter_eq "id" id (session o)) with
          | Some conn =>
              Some {[ "id" := Db.attr conn "id";
                      "connection_type" := Db.attr conn "connection_type";
                      "description" := Db.attr conn "description" ]}
          | None => None
          end).
Proof.
  intros Ho. unfold Connection_get_params_from_db, getitem. by rewrite Ho.
Qed.

(** X17: [LogixConnection.get_params_from_db] ends in [AttributeError]
    exactly when the Logix table holds a row with the id and the base
    table holds none.  Whenever it returns parameters, they build a Logix
    connection with the id asked for, and if the Logix table holds a row
    with the id, the poll rate of that connection is the stored one, or
    1.0 when the stored one is falsy. *)
Theorem logix_get_params_needs_base_row models session id lo o :
  models !! "connection-params-local" = Some lo →
  models !! "connection-params-logix" = Some o →
  ((∃ msg, LogixConnection_get_params_from_db models session id = Db.AttributeError msg)
   ↔ (∀ r, r ∈ session lo → Db.attr r "id" ≠ id)
     ∧ ∃ r, r ∈ session o ∧ Db.attr r "id" = id)
  ∧ (∀ params,
       LogixConnection_get_params_from_db models session id = Db.Loaded (Some params) →
       ∃ lc, LogixConnection.__init__ models params = Return lc
             ∧ _id (LogixConnection.base lc) = id
             ∧ connection_type (LogixConnection.base lc) = "logix"
             ∧ ∀ conn, Db.first (Db.filter_eq "id" id (session o)) = Some conn →
                       _pollrate (LogixConnection.base lc)
                       = py_or (Db.attr conn "pollrate") (VNum 1)).
Proof.
  intros Hlo Ho. unfold LogixConnection_get_params_from_db.
  rewrite (get_params_run _ _ _ _ Hlo). unfold getitem. rewrite Ho.
  destruct (Db.first (Db.filter_eq "id" id (session lo))) as [b|] eqn:Hb;
    destruct (Db.first (Db.filter_eq "id" id (session o))) as [conn|] eqn:Hconn;
    cbv beta iota.
  - apply first_filter_Some in Hb as [Hbin Hbid]. split.
    + split; [by intros [msg ?]|]. intros [Hnone _]. by destruct (Hnone b Hbin).
    + intros params [= <-].
      unfold LogixConnection.__init__. cbn.
      erewrite init_present; [|by simplify_map_eq..].
      rewrite Hlo. cbn. unfold getitem. rewrite Ho. cbn.
      eexists. split_and!; [reflexivity | by simplify_map_eq | done |].
      intros conn' [= <-]. cbn. unfold get. by simplify_map_eq.
  - apply first_filter_Some in Hb as [Hbin Hbid]. split.
    + split; [by intros [msg ?]|]. intros [Hnone _]. by destruct (Hnone b Hbin).
    + intros params [= <-].
      unfold LogixConnection.__init__. cbn.
      erewrite init_present; [|by simplify_map_eq..].
      rewrite Hlo. cbn. unfold getitem. rewrite Ho. cbn.
      eexists. split_and!; [reflexivity | by simplify_map_eq | done | done].
  - apply first_filter_Some in Hconn as [Hin Hid].
    pose proof (proj1 (first_filter_None _ _ _) Hb) as Hnone. split; [|done].
    split; [|by eexists]. intros _. split; [exact Hnone | by exists conn].
  - pose proof (proj1 (first_filter_None _ _ _) Hconn) as Hnone. split; [|done].
    split; [by intros [msg ?]|]. intros [_ (r & Hr & Hid)]. by destruct (Hnone r Hr).
Qed.

(** The base table has no row "plc", the Logix table has one. *)
Lemma logix_get_params_needs_base_row_witness :
  declared_models !! "connection-params-local" = Some (OrmModel "connection-params-local")
  ∧ declared_models !! "connection-params-logix" = Some (OrmModel "connection-params-logix")
  ∧ ∃ msg,
      LogixConnection_get_params_from_db declared_models
        (λ '(OrmModel table),
           if decide (table = "connection-params-logix")
           then [ {[ "id" := VStr "plc"; "pollrate" := VNum 1 ]} ] else [])
        (VStr "plc")
      = Db.AttributeError msg.
Proof.
  assert (declared_models !! "connection-params-local"
          = Some (OrmModel "connection-params-local")) as Hlo by (vm_compute; reflexivity).
  assert (declared_models !! "connection-params-logix"
          = Some (OrmModel "connection-params-logix")) as Ho by (vm_compute; reflexivity).
  split_and!; [exact Hlo | exact Ho |].
  apply (proj1 (logix_get_params_needs_base_row declared_models _ (VStr "plc") _ _ Hlo Ho)).
  split.
  - intros r Hr. vm_compute in Hr. by apply not_elem_of_nil in Hr.
  - eexists. split; [vm_compute; by left | vm_compute; reflexivity].
Defined.

(** X18: on a connection of type "logix", with the table [TAG_TYPES],
    [load_tags_from_db] does nothing when the tag table holds no row of the
    connection, and otherwise fails at the first row with a bare
    [KeyError] for 'logix', not a [PropertyError]; in both cases the
    connection is left as it was. *)
Theorem load_tags_logix class_get_params models session c tr o :
  connection_type c = "logix" →
  models !! "tag-params-local" = Some o →
  load_tags_from_db TAG_TYPES class_get_params models session (World c tr)
  = match Db.filter_eq "connection_id" (id c) (session o) with
    | [] => (Returns tt, World c tr)
    | _ :: _ => (Raises (KeyError (VStr "logix")), World c tr)
    end.
Proof.
  intros Htype Ho. unfold load_tags_from_db.
  rewrite bind_run. unfold getitem at 1. rewrite Ho. cbn [lift].
  rewrite bind_run. cbn [get_self self].
  destruct (Db.filter_eq "connection_id" (id c) (session o)) as [|row rows]; [done|].
  cbn [for_]. unfold bind at 1. cbv beta.
  rewrite bind_run. cbn [get_self self]. rewrite bind_run, Htype.
  reflexivity.
Qed.

Lemma load_tags_logix_witness :
  connection_type (set_connection_type "logix" c1) = "logix"
  ∧ declared_models !! "tag-params-local" = Some (OrmModel "tag-params-local")
  ∧ load_tags_from_db TAG_TYPES (λ _ _ _ _, Return None) declared_models
      (λ _, [ {[ "id" := VStr "t1"; "connection_id" := VStr "c1" ]} ])
      (World (set_connection_type "logix" c1) [])
    = (Raises (KeyError (VStr "logix")), World (set_connection_type "logix" c1) []).
Proof.
  assert (declared_models !! "tag-params-local" = Some (OrmModel "tag-params-local"))
    as Ho by (vm_compute; reflexivity).
  split_and!; [reflexivity | exact Ho |].
  exact (load_tags_logix (λ _ _ _ _, Return None) declared_models
           (λ _, [ {[ "id" := VStr "t1"; "connection_id" := VStr "c1" ]} ])
           (set_connection_type "logix" c1) [] _ eq_refl Ho).
Defined.
End LoadingLogix.

Section LoadingLocal.
Import Connection.
Implicit Types (c : t) (tr : list event) (models : orm_models) (session : Db.session).

Lemma load_loop_local class_get_params models session (rows : list Db.row) c tr :
  connection_type c = "local" →
  (∀ row, row ∈ rows →
     ∃ p, class_get_params TagClass session (Db.attr row "id") (id c) = Return (Some p)
          ∧ p !! "id" = Some (Db.attr row "id")) →
  ∃ m, for_ rows (λ tag,
           c ← get_self;
           cls ← lift (getitem TAG_TYPES (connection_type c));
           params ← lift (class_get_params cls session (Db.attr tag "id") (id c));
           match params with
           | Some params => new_tag TAG_TYPES models params ;; ret tt
           | None =>
               lift (Raise (TypeError "'NoneType' object does not support item assignment"))
           end)
         (World c tr)
       = (Returns tt, World (set_tags m c) tr)
       ∧ (∀ row, row ∈ rows →
            ∃ tag, m !! Db.attr row "id" = Some (ATag tag)
                   ∧ Tag._connection_id tag = id c)
       ∧ (∀ k, (∀ row, row ∈ rows → Db.attr row "id" ≠ k) → m !! k = tags c !! k).
Proof.
  revert c. induction rows as [|row rows IH]; intros c Htype Hrows.
  - exists (tags c). split_and!.
    + cbn. by destruct c.
    + intros row Hrow. by apply not_elem_of_nil in Hrow.
    + done.
  - destruct (Hrows row ltac:(by left)) as (p & Hp & Hpid).
    cbn [for_]. unfold bind at 1. cbv beta.
    rewrite bind_run. cbn [get_self self]. rewrite bind_run, Htype.
    replace (getitem TAG_TYPES "local") with (Return TagClass)
      by (vm_compute; reflexivity).
    cbn [lift]. rewrite bind_run, Hp. cbn [lift].
    rewrite bind_run, new_tag_run, Htype.
    replace (TAG_TYPES !! "local") with (Some TagClass) by (vm_compute; reflexivity).
    cbn [construct]. rewrite tag_init_run. unfold new_tag_params.
    rewrite lookup_insert_ne by done. rewrite lookup_insert_eq, Hpid.
    cbn [mbind result_bind rbind]. unfold ret at 1.
    set (tag0 := Tag.mk (Db.attr row "id") (id c)
                   (default (VStr "") (<["connection_id":=id c]> p !! "description"))
                   (default (VStr "") (<["connection_id":=id c]> p !! "datatype"))
                   (default (VStr "") (<["connection_id":=id c]> p !! "tag_type"))).
    set (c1 := set_tags (<[Db.attr row "id" := ATag tag0]> (tags c)) c).
    destruct (IH c1) as (m & Hrun & Hm & Hframe).
    { exact Htype. }
    { intros row' Hrow'. apply Hrows. by right. }
    exists m. split_and!.
    + exact Hrun.
    + intros row' [->|Hrow']%elem_of_cons; [|by apply Hm].
      destruct (decide (Exists (λ r, Db.attr r "id" = Db.attr row "id") rows))
        as [Hex|Hnex].
      * apply Exists_exists in Hex as (r & Hr & Hrid).
        rewrite <- Hrid. by apply Hm.
      * exists tag0. split; [|done]. rewrite Hframe.
        -- subst c1. cbn. apply lookup_insert_eq.
        -- intros r Hr Hrid. apply Hnex, Exists_exists. eauto.
    + intros k Hk. rewrite Hframe.
      * subst c1. cbn. apply lookup_insert_ne. apply Hk. by left.
      * intros r Hr. apply Hk. by right.
Qed.

(** X19: on a connection of type "local", when the class method of the
    tag class returns, for every stored tag row of the connection,
    parameters that carry the row's id, [load_tags_from_db] returns having
    registered a tag for every such row, each bound to the connection's own
    id; the entries of the tag map under other ids, the rest of the
    connection and the trace are as before. *)
Theorem load_tags_local class_get_params models session c tr o :
  connection_type c = "local" →
  models !! "tag-params-local" = Some o →
  (∀ row, row ∈ session o → Db.attr row "connection_id" = id c →
     ∃ p, class_get_params TagClass session (Db.attr row "id") (id c) = Return (Some p)
          ∧ p !! "id" = Some (Db.attr row "id")) →
  ∃ w, load_tags_from_db TAG_TYPES class_get_params models session (World c tr)
       = (Returns tt, w)
       ∧ trace w = tr
       ∧ set_tags (tags c) (self w) = c
       ∧ (∀ row, row ∈ session o → Db.attr row "connection_id" = id c →
            ∃ tag, tags (self w) !! Db.attr row "id" = Some (ATag tag)
                   ∧ Tag._connection_id tag = id c)
       ∧ (∀ k, (∀ row, row ∈ session o → Db.attr row "connection_id" = id c →
                       Db.attr row "id" ≠ k) →
               tags (self w) !! k = tags c !! k).
Proof.
  intros Htype Ho Hrows. unfold load_tags_from_db.
  rewrite bind_run. unfold getitem at 1. rewrite Ho. cbn [lift].
  rewrite bind_run. cbn [get_self self].
  destruct (load_loop_local class_get_params models session
              (Db.filter_eq "connection_id" (id c) (session o)) c tr Htype)
    as (m & Hrun & Hm & Hframe).
  { intros row [Hcid Hrow]%list_elem_of_filter. by apply Hrows. }
  rewrite Hrun. eexists. split; [reflexivity|]. cbn [self trace tags set_tags _tags].
  split_and!; [done | by destruct c | |].
  - intros row Hrow Hcid. apply Hm. by apply list_elem_of_filter.
  - intros k Hk. apply Hframe.
    intros row [Hcid Hrow]%list_elem_of_filter. by apply Hk.
Qed.

(** One stored tag "t1" of the connection "c1", and one of another. *)
Lemma load_tags_local_witness :
  connection_type c1 = "local"
  ∧ declared_models !! "tag-params-local" = Some (OrmModel "tag-params-local")
  ∧ ∃ w, load_tags_from_db TAG_TYPES
           (λ _ _ tag_id _, Return (Some {[ "id" := tag_id ]}))
           declared_models
           (λ _, [ {[ "id" := VStr "t1"; "connection_id" := VStr "c1" ]};
                   {[ "id" := VStr "t9"; "connection_id" := VStr "c2" ]} ])
           (World c1 [])
         = (Returns tt, w)
         ∧ trace w = []
         ∧ set_tags (tags c1) (self w) = c1.
Proof.
  assert (declared_models !! "tag-params-local" = Some (OrmModel "tag-params-local"))
    as Ho by (vm_compute; reflexivity).
  split_and!; [reflexivity | exact Ho |].
  destruct (load_tags_local (λ _ _ tag_id _, Return (Some {[ "id" := tag_id ]}))
              declared_models
              (λ _, [ {[ "id" := VStr "t1"; "connection_id" := VStr "c1" ]};
                      {[ "id" := VStr "t9"; "connection_id" := VStr "c2" ]} ])
              c1 [] _ eq_refl Ho) as (w & Hrun & Htr & Hc & _).
  - intros row _ _. eexists. split; [reflexivity | apply lookup_singleton_eq].
  - exists w. by split_and!.
Defined.
End LoadingLocal.

Section LoadingLogixTags.
Implicit Types (params : dict) (models : orm_models) (session : Db.session).

(** X20: when the base class method returns parameters holding [id] and
    [connection_id], [LogixTag.get_params_from_db] returns parameters too.
    If the Logix tag table holds a row for the id and the connection, they
    build a Logix tag whose address is the stored one, whatever address
    the base parameters gave; if it holds none, they are the base
    parameters, and without an [address] of their own they fail the
    constructor with MissingProperty for [address]. *)
Theorem logix_tag_get_params_then_init tag_get_params models session id cid p o :
  tag_get_params session id cid = Return (Some p) →
  is_Some (p !! "id") →
  is_Some (p !! "connection_id") →
  models !! "tag-params-logix" = Some o →
  match Db.first (Db.filter_eq "connection_id" cid (Db.filter_eq "id" id (session o))) with
  | Some row =>
      ∃ params tag,
        LogixTag_get_params_from_db tag_get_params models session id cid
        = Db.Loaded (Some params)
        ∧ LogixTag.__init__ models params = Return tag
        ∧ LogixTag._address tag = Db.attr row "address"
        ∧ Db.attr row "id" = id
        ∧ Db.attr row "connection_id" = cid
  | None =>
      LogixTag_get_params_from_db tag_get_params models session id cid
      = Db.Loaded (Some p)
      ∧ (p !! "address" = None →
         LogixTag.__init__ models p = Raise (MissingProperty (VStr "address")))
  end.
Proof.
  intros Hp [vid Hid] [vcid Hcid] Ho.
  unfold LogixTag_get_params_from_db. rewrite Hp. unfold getitem. rewrite Ho.
  cbv beta iota.
  destruct (Db.first _) as [row|] eqn:Hrow.
  - apply first_filter_Some in Hrow as [Hin Hrcid].
    apply list_elem_of_filter in Hin as [Hrid _].
    eexists _, _. split; [reflexivity|].
    rewrite logix_tag_init_run, tag_init_run, Ho.
    rewrite !lookup_union_r by (by apply lookup_singleton_ne).
    rewrite Hid, Hcid.
    rewrite (lookup_union_Some_l _ _ _ (Db.attr row "address"))
      by apply lookup_singleton_eq.
    split; [reflexivity|]. cbn. by split_and!.
  - split; [done|]. intros Ha.
    by rewrite logix_tag_init_run, tag_init_run, Ho, Hid, Hcid, Ha.
Qed.

Lemma logix_tag_get_params_then_init_witness :
  ∃ params tag,
    LogixTag_get_params_from_db
      (λ _ id cid, Return (Some {[ "id" := id; "connection_id" := cid ]}))
      declared_models
      (λ _, [ {[ "id" := VStr "t1"; "connection_id" := VStr "c1";
                 "address" := VStr "N7:0" ]} ])
      (VStr "t1") (VStr "c1")
    = Db.Loaded (Some params)
    ∧ LogixTag.__init__ declared_models params = Return tag
    ∧ LogixTag._address tag = VStr "N7:0".
Proof.
  pose proof (logix_tag_get_params_then_init
                (λ _ id cid, Return (Some {[ "id" := id; "connection_id" := cid ]}))
                declared_models
                (λ _, [ {[ "id" := VStr "t1"; "connection_id" := VStr "c1";
                           "address" := VStr "N7:0" ]} ])
                (VStr "t1") (VStr "c1") _ (OrmModel "tag-params-logix") eq_refl) as H.
  destruct (Db.first _) as [row|] eqn:Hrow in H; [|vm_compute in Hrow; discriminate].
  destruct H as (params & tag & Hload & Hinit & Haddr & _).
  - vm_compute. eauto.
  - vm_compute. eauto.
  - vm_compute. reflexivity.
  - exists params, tag. split_and!; [exact Hload | exact Hinit |].
    rewrite Haddr. vm_compute in Hrow. injection Hrow as <-. vm_compute. reflexivity.
Defined.
End LoadingLogixTags.

(** ** A control call on the polled list itself *)

Section OwnListFacts.
Context {A : Type} `{EqDecision A}.
Implicit Types (l : list A) (x : A).

Lemma remove_from_itself_end (turns i : nat) l :
  (length l ≤ i)%nat → remove_from_itself turns i l = Return l.
Proof.
  intros Hi. destruct turns as [|turns]; [done|].
  cbn [remove_from_itself]. by rewrite lookup_ge_None_2.
Qed.

(** The length of the list is a bound on the turns: a further turn finds
    the position past the end. *)
Lemma remove_from_itself_turns (turns i : nat) l :
  (length l ≤ i + turns)%nat →
  remove_from_itself (S turns) i l = remove_from_itself turns i l.
Proof.
  revert i l. induction turns as [|turns IH]; intros i l Hlen.
  - cbn. by rewrite lookup_ge_None_2 by lia.
  - change (remove_from_itself (S (S turns)) i l)
      with (match l !! i with
            | None => Return l
            | Some tag =>
                if py_in tag l
                then polled' ← py_remove tag l; remove_from_itself (S turns) (S i) polled'
                else remove_from_itself (S turns) (S i) l
            end).
    cbn [remove_from_itself].
    destruct (l !! i) as [tag|]; [|done].
    unfold py_in. case_bool_decide as Hin.
    + destruct (py_remove_elem tag l Hin) as (l' & -> & Hsub & _).
      cbn [mbind result_bind rbind]. apply IH.
      apply sublist_length in Hsub. lia.
    + apply IH. lia.
Qed.

Lemma py_remove_app l1 x rest :
  x ∉ l1 → py_remove x (l1 ++ x :: rest) = Return (l1 ++ rest).
Proof.
  induction l1 as [|y l1 IH]; intros Hx; cbn [app py_remove].
  - by rewrite decide_True.
  - rewrite decide_False by (intros ->; apply Hx; by left).
    rewrite IH by (intros ?; apply Hx; by right). done.
Qed.

(** On a list without duplicates the loop removes the element under the
    position, moves on, and so skips the element that slid into the
    place: every other element survives. *)
Lemma remove_from_itself_odds (turns : nat) l1 rest :
  NoDup (l1 ++ rest) →
  (length rest ≤ turns)%nat →
  remove_from_itself turns (length l1) (l1 ++ rest) = Return (l1 ++ odds rest).
Proof.
  revert l1 rest. induction turns as [|turns IH]; intros l1 rest Hnd Hlen.
  - destruct rest; [done | cbn in Hlen; lia].
  - destruct rest as [|x rest].
    + apply remove_from_itself_end. rewrite length_app. cbn. lia.
    + cbn [remove_from_itself].
      rewrite lookup_app_r, Nat.sub_diag by lia. cbn [lookup list_lookup].
      unfold py_in. rewrite bool_decide_eq_true_2
        by (apply elem_of_app; right; by left).
      apply NoDup_app in Hnd as (Hl1 & Hdisj & [Hx Hrest]%NoDup_cons).
      rewrite py_remove_app by (intros Hin; apply (Hdisj x Hin); by left).
      cbn [mbind result_bind rbind].
      destruct rest as [|y rest].
      * rewrite remove_from_itself_end; [done|]. rewrite length_app. cbn. lia.
      * replace (S (length l1)) with (length (l1 ++ [y]))
          by (rewrite length_app; cbn; lia).
        replace (l1 ++ y :: rest) with ((l1 ++ [y]) ++ rest)
          by by rewrite <- app_assoc.
        rewrite IH.
        -- cbn [odds]. by rewrite <- app_assoc.
        -- rewrite <- app_assoc. cbn. apply NoDup_app. split_and!; [done | | done].
           intros z Hz Hin. apply (Hdisj z Hz). by right.
        -- cbn in Hlen. lia.
Qed.
End OwnListFacts.

Section OwnListCall.
Import Connection.
Implicit Types (c : t) (tr : list event).

(** X21: [remove_polled_tags(self.polled_tags)], the call whose argument is
    the polled list itself, on a list without duplicates and with the lock
    free: the first loop removes every other id, starting with the first,
    the hit list is empty, and the call returns with the ids at the
    second, fourth, ... place left in the list; polling is on exactly when
    some id is left. *)
Theorem remove_polled_tags_of_itself_keeps_every_other c tr :
  thread_lock c = false →
  NoDup (polled_tags c) →
  remove_polled_tags_of_itself (World c tr)
  = (Returns tt,
     World (settled (odds (polled_tags c)) c)
           (tr ++ thread_started (odds (polled_tags c)) c)).
Proof.
  intros Hfree Hnd. unfold remove_polled_tags_of_itself.
  rewrite bind_run, (aquire_lock_free _ _ Hfree).
  rewrite bind_run. cbn [get_self self polled_tags set_thread_lock].
  rewrite bind_run.
  rewrite (remove_from_itself_odds (length (polled_tags c)) [] (polled_tags c))
    by done.
  cbn [lift app]. rewrite bind_run. unfold modify at 1. cbn [self trace].
  rewrite bind_run. cbn [get_self self polled_tags set_polled_tags].
  rewrite prune_and_release_run by reflexivity.
  cbn [polled_tags]. rewrite hitlist_length.
  rewrite length_filter_none by (intros x Hx Hn; by apply Hn).
  rewrite drop_0. reflexivity.
Qed.

(** ['a', 'b', 'c'] leaves ['b'], with polling on. *)
Lemma remove_polled_tags_of_itself_keeps_every_other_witness :
  thread_lock (set_polled_tags [VStr "a"; VStr "b"; VStr "c"] c1) = false
  ∧ NoDup (polled_tags (set_polled_tags [VStr "a"; VStr "b"; VStr "c"] c1))
  ∧ ∃ w, remove_polled_tags_of_itself
           (World (set_polled_tags [VStr "a"; VStr "b"; VStr "c"] c1) [])
         = (Returns tt, w)
         ∧ polled_tags (self w) = [VStr "b"]
         ∧ polling (self w) = true.
Proof.
  assert (NoDup (polled_tags (set_polled_tags [VStr "a"; VStr "b"; VStr "c"] c1)))
    as Hnd by (apply (bool_decide_unpack _); vm_compute; exact I).
  split; [reflexivity|]. split; [exact Hnd|].
  eexists. split.
  - exact (remove_polled_tags_of_itself_keeps_every_other
             (set_polled_tags [VStr "a"; VStr "b"; VStr "c"] c1) [] eq_refl Hnd).
  - split; reflexivity.
Defined.
End OwnListCall.
